(** * gql-codegen-tools: mock-factory generation from GraphQL fragments

    A shallow embedding of [src/utils/factory-helpers.ts] and
    [src/generateFactories.ts], followed by the properties of the
    generator that hold (or fail) on that code.

    Conventions of the embedding.
    - JavaScript strings are [string]; the documents handled are ASCII text.
    - A path is the list of its segments, relative to the working directory.
    - The file system is an association list in enumeration order; a new
      file is listed last.
    - [graphql]'s [parse], the value generators of [@faker-js/faker] and the
      loaded schema are external: they are the fields of [Env].
    - [src/gql/ids.ts] is kept as the list of the property assignments of
      its [ids] object literal, apart from the other files.
    - [console] output, file writes and saves of [ids.ts] are recorded, in
      order, in the trace of the [World]. *)

From Stdlib Require Import String Ascii List Bool Arith Lia.
Import ListNotations.
Open Scope string_scope.
Set Warnings "-register-all".

(** [Array.prototype.push] and [unshift]. *)
Definition push {A} (l : list A) (x : A) : list A := (l ++ [x])%list.
Definition unshift {A} (l : list A) (x : A) : list A := x :: l.

(* ================================================================== *)
(** ** Characters and strings *)

Module Str.

Definition code (c : ascii) : nat := nat_of_ascii c.

Definition between (lo hi : nat) (c : ascii) : bool :=
  Nat.leb lo (code c) && Nat.leb (code c) hi.

Definition isLower : ascii -> bool := between 97 122.
Definition isUpper : ascii -> bool := between 65 90.
Definition isDigit : ascii -> bool := between 48 57.

(** The class [\w] of a JavaScript regular expression. *)
Definition isWord (c : ascii) : bool :=
  isLower c || isUpper c || isDigit c || Nat.eqb (code c) 95.

(** The class [\s], on ASCII: tab, line feed, vertical tab, form feed,
    carriage return, space. *)
Definition isSpace (c : ascii) : bool :=
  between 9 13 c || Nat.eqb (code c) 32.

(** Line terminators, which [.] does not match. *)
Definition isNewline (c : ascii) : bool :=
  Nat.eqb (code c) 10 || Nat.eqb (code c) 13.

Definition lowerChar (c : ascii) : ascii :=
  if isUpper c then ascii_of_nat (code c + 32) else c.

Definition upperChar (c : ascii) : ascii :=
  if isLower c then ascii_of_nat (code c - 32) else c.

Fixpoint map (f : ascii -> ascii) (s : string) : string :=
  match s with
  | EmptyString => EmptyString
  | String c r => String (f c) (map f r)
  end.

Definition toLowerCase : string -> string := map lowerChar.
Definition toUpperCase : string -> string := map upperChar.

Fixpoint all (p : ascii -> bool) (s : string) : bool :=
  match s with
  | EmptyString => true
  | String c r => p c && all p r
  end.

(** Longest prefix of characters in the class [p]. *)
Fixpoint takeWhile (p : ascii -> bool) (s : string) : string :=
  match s with
  | String c r => if p c then String c (takeWhile p r) else EmptyString
  | EmptyString => EmptyString
  end.

Fixpoint dropWhile (p : ascii -> bool) (s : string) : string :=
  match s with
  | String c r => if p c then dropWhile p r else s
  | EmptyString => EmptyString
  end.

Fixpoint drop (n : nat) (s : string) : string :=
  match n, s with
  | S k, String _ r => drop k r
  | _, _ => s
  end.

Definition take (n : nat) (s : string) : string := substring 0 n s.

Definition isEmpty (s : string) : bool :=
  match s with EmptyString => true | _ => false end.

Definition startsWith (p s : string) : bool := prefix p s.

Fixpoint endsWith (suffix s : string) : bool :=
  (s =? suffix) ||
  match s with
  | String _ r => endsWith suffix r
  | EmptyString => false
  end.

(** [s.includes(p)]. *)
Fixpoint includes (p s : string) : bool :=
  prefix p s ||
  match s with
  | String _ r => includes p r
  | EmptyString => false
  end.

(** [s.replace(pat, rep)] with a string pattern: the first occurrence only. *)
Fixpoint replaceFirst (pat rep s : string) : string :=
  if prefix pat s then rep ++ drop (String.length pat) s
  else match s with
       | String c r => String c (replaceFirst pat rep r)
       | EmptyString => EmptyString
       end.

(** The text before the first occurrence of [sep]: [s.split(sep)[0]] for a
    one-character separator. *)
Fixpoint beforeChar (sep : ascii) (s : string) : string :=
  match s with
  | String c r => if Ascii.eqb c sep then EmptyString else String c (beforeChar sep r)
  | EmptyString => EmptyString
  end.

(** [s.split(sep)] for a one-character separator. *)
Fixpoint split (sep : ascii) (s : string) : list string :=
  match s with
  | EmptyString => [EmptyString]
  | String c r =>
      if Ascii.eqb c sep then EmptyString :: split sep r
      else match split sep r with
           | h :: t => String c h :: t
           | [] => [String c EmptyString]
           end
  end.

Definition rev (s : string) : string :=
  string_of_list_ascii (List.rev (list_ascii_of_string s)).

Definition trim (s : string) : string :=
  rev (dropWhile isSpace (rev (dropWhile isSpace s))).

Definition dquote : string := String (ascii_of_nat 34) EmptyString.

Definition hexDigit (n : nat) : ascii :=
  if Nat.ltb n 10 then ascii_of_nat (48 + n) else ascii_of_nat (87 + n).

(** [JSON.stringify] of a string: quoted, with the quote, the backslash and
    the control characters escaped. *)
Fixpoint jsonEscape (s : string) : string :=
  match s with
  | EmptyString => EmptyString
  | String c r =>
      let n := code c in
      (if Nat.eqb n 34 then String "\" dquote
       else if Nat.eqb n 92 then "\\"
       else if Nat.eqb n 8 then "\b"
       else if Nat.eqb n 9 then "\t"
       else if Nat.eqb n 10 then "\n"
       else if Nat.eqb n 12 then "\f"
       else if Nat.eqb n 13 then "\r"
       else if Nat.ltb n 32 then
         "\u00" ++ String (hexDigit (n / 16)) (String (hexDigit (n mod 16)) EmptyString)
       else String c EmptyString) ++ jsonEscape r
  end.

Definition JSON_stringify (s : string) : string :=
  dquote ++ jsonEscape s ++ dquote.

End Str.

(* ================================================================== *)
(** ** Paths, the file system and fast-glob *)

Definition Path := list string.

Definition path_eqb (p q : Path) : bool :=
  if list_eq_dec string_dec p q then true else false.

Module PathLib.

(** The text of a path: its segments joined by [/]. *)
Definition text (p : Path) : string := String.concat "/" p.

(** [path.dirname]. *)
Definition dirname (p : Path) : Path := removelast p.

(** [path.join(dir, file)]. *)
Definition join (dir : Path) (file : string) : Path := push dir file.

(** [path.relative(from, to)]: drop the common prefix, climb out of what is
    left of [from], descend into what is left of [to]. *)
Fixpoint relative (from to : Path) : Path :=
  match from, to with
  | f :: from', t :: to' =>
      if f =? t then relative from' to'
      else (List.map (fun _ => "..") from ++ to)%list
  | _, _ => (List.map (fun _ => "..") from ++ to)%list
  end.

(** [String.prototype.replace] with a string pattern, on the text of a
    path.  The pattern holds no [/], so its first occurrence lies inside
    the first segment that contains it. *)
Fixpoint replaceFirst (pat rep : string) (p : Path) : Path :=
  match p with
  | [] => []
  | seg :: rest =>
      if Str.includes pat seg then Str.replaceFirst pat rep seg :: rest
      else seg :: replaceFirst pat rep rest
  end.

End PathLib.

(** [toRelativeImport]: the relative path with [\] turned into [/] and a
    final [.ts] removed, made explicit-relative. *)
Definition backslash : ascii := ascii_of_nat 92.

Definition toRelativeImport (from to : Path) : string :=
  let rel := PathLib.text (PathLib.relative from to) in
  let rel := Str.map (fun c => if Ascii.eqb c backslash then "/"%char else c) rel in
  let rel := if Str.endsWith ".ts" rel then Str.take (String.length rel - 3) rel else rel in
  if Str.startsWith "." rel then rel else "./" ++ rel.

Definition FS := list (Path * string).

Module Fs.

Fixpoint readFile (fs : FS) (p : Path) : option string :=
  match fs with
  | [] => None
  | (q, c) :: rest => if path_eqb q p then Some c else readFile rest p
  end.

Definition existsSync (fs : FS) (p : Path) : bool :=
  match readFile fs p with Some _ => true | None => false end.

(** [fs.writeFileSync]: the file is overwritten in place, or created. *)
Fixpoint writeFile (fs : FS) (p : Path) (content : string) : FS :=
  match fs with
  | [] => [(p, content)]
  | (q, c) :: rest =>
      if path_eqb q p then (q, content) :: rest
      else (q, c) :: writeFile rest p content
  end.

End Fs.

Module Glob.

(** By default fast-glob lets no wildcard match a name that starts with a
    dot. *)
Definition visible (seg : string) : bool := negb (Str.startsWith "." seg).

(** [glob.sync]: the files whose path the pattern accepts, in enumeration
    order. *)
Definition sync (accepts : Path -> bool) (fs : FS) : list Path :=
  List.map fst (List.filter (fun f => accepts (fst f)) fs).

(** [src/**/*/*.fragment.gql] *)
Definition anyFragment (p : Path) : bool :=
  match p with
  | "src" :: rest =>
      match List.rev rest with
      | file :: dir :: dirs =>
          Str.endsWith ".fragment.gql" file && visible file
          && forallb visible (dir :: dirs)
      | _ => false
      end
  | _ => false
  end.

(** [src/**/*/${name}.fragment.gql] *)
Definition fragmentNamed (name : string) (p : Path) : bool :=
  match p with
  | "src" :: rest =>
      match List.rev rest with
      | file :: dir :: dirs =>
          (file =? name ++ ".fragment.gql") && forallb visible (dir :: dirs)
      | _ => false
      end
  | _ => false
  end.

(** [src/gql/**/${name}.factory.ts] *)
Definition factoryNamed (name : string) (p : Path) : bool :=
  match p with
  | "src" :: "gql" :: rest =>
      match List.rev rest with
      | file :: dirs => (file =? name ++ ".factory.ts") && forallb visible dirs
      | _ => false
      end
  | _ => false
  end.

(** [src/**/*.ts] *)
Definition anyTs (p : Path) : bool :=
  match p with
  | "src" :: rest =>
      match List.rev rest with
      | file :: dirs =>
          Str.endsWith ".ts" file && visible file && forallb visible dirs
      | _ => false
      end
  | _ => false
  end.

End Glob.

(* ================================================================== *)
(** ** The schema and the fragment documents, as graphql-js presents them *)

Inductive TypeKind :=
  | ScalarType | EnumType | ObjectType | InterfaceType | UnionType
  | InputObjectType.

(** A [GraphQLNamedType], as far as the generator inspects it: its name
    and the class it is an instance of. *)
Record NamedType := { name : string; kind : TypeKind }.

Inductive GraphQLType :=
  | Named (t : NamedType)
  | GraphQLList (ofType : GraphQLType)
  | GraphQLNonNull (ofType : GraphQLType).

(** A type of the schema with the fields [getFields()] returns. *)
Record TypeDef := {
  typeName : string;
  typeKind : TypeKind;
  typeFields : list (string * GraphQLType)
}.

Definition Schema := list TypeDef.

(** [schema.getType(name)] *)
Definition getType (schema : Schema) (n : string) : option TypeDef :=
  find (fun t => typeName t =? n) schema.

(** Only object, interface and input object types have [getFields]. *)
Definition hasGetFields (k : TypeKind) : bool :=
  match k with
  | ObjectType | InterfaceType | InputObjectType => true
  | _ => false
  end.

(** [type.getFields()[fieldName]]; the map has no prototype. *)
Definition getField (t : TypeDef) (fieldName : string) : option GraphQLType :=
  option_map snd (find (fun f => fst f =? fieldName) (typeFields t)).

Inductive Selection :=
  | Field (fieldName : string) (selectionSet : list Selection)
  | FragmentSpread (spreadName : string)
  | InlineFragment (typeCondition : option string) (selectionSet : list Selection).

Inductive DefinitionNode :=
  | FragmentDefinition (fragmentName : string) (typeCondition : string)
      (selections : list Selection)
  | OperationDefinition (selections : list Selection)
  | TypeSystemDefinition.

Definition DocumentNode := list DefinitionNode.

(* ================================================================== *)
(** ** src/utils/factory-helpers.ts *)

Fixpoint unwrapType (type : GraphQLType) : NamedType :=
  match type with
  | Named t => t
  | GraphQLList t => unwrapType t
  | GraphQLNonNull t => unwrapType t
  end.

Definition builtinScalars : list string :=
  ["String"; "Int"; "Float"; "Boolean"; "ID"].

Definition instanceOfScalar (t : NamedType) : bool :=
  match kind t with ScalarType => true | _ => false end.

Definition isScalar (t : NamedType) : bool :=
  instanceOfScalar t || existsb (String.eqb (name t)) builtinScalars.

Definition isEnum (t : NamedType) : bool :=
  match kind t with EnumType => true | _ => false end.

Definition isListType (type : GraphQLType) : bool :=
  match type with GraphQLList _ => true | _ => false end.

Definition isListTypeDeep (type : GraphQLType) : bool :=
  match type with
  | GraphQLNonNull t => isListType t
  | _ => isListType type
  end.

(** [str.replace(/([a-z])([A-Z])/g, "$1-$2").toLowerCase()].  A match ends
    on an upper-case letter, which starts no other match, so every
    lower-case letter followed by an upper-case one gets its dash. *)
Fixpoint dashed (s : string) : string :=
  match s with
  | EmptyString => EmptyString
  | String a rest =>
      match rest with
      | String b _ =>
          if Str.isLower a && Str.isUpper b
          then String a (String "-" (dashed rest))
          else String a (dashed rest)
      | EmptyString => String a EmptyString
      end
  end.

Definition toKebabCase (str : string) : string := Str.toLowerCase (dashed str).

(** The matches of [-\w] in [str.replace(/(^\w|-\w)/g, ...)]: the dash is
    dropped and the character upper-cased. *)
Fixpoint pascalTail (s : string) : string :=
  match s with
  | EmptyString => EmptyString
  | String a rest =>
      match rest with
      | String b rest' =>
          if Ascii.eqb a "-" && Str.isWord b
          then String (Str.upperChar b) (pascalTail rest')
          else String a (pascalTail rest)
      | EmptyString => String a EmptyString
      end
  end.

(** [^\w] matches at the start only. *)
Definition toPascalCase (str : string) : string :=
  match str with
  | String a rest =>
      if Str.isWord a then String (Str.upperChar a) (pascalTail rest)
      else pascalTail str
  | EmptyString => EmptyString
  end.

Definition toCamelCase (str : string) : string :=
  match str with
  | String a rest => String (Str.lowerChar a) rest
  | EmptyString => EmptyString
  end.

(** One attempt of [/(\w+)\s*\{\s*\.\.\.(\w+)/] at the start of [s]: the
    two groups and the length of the match.  Each quantifier is followed by
    a character outside its class, so each takes the longest run. *)
Definition matchFieldSpread (s : string) : option (string * string * nat) :=
  let field := Str.takeWhile Str.isWord s in
  if Str.isEmpty field then None
  else
    let afterField := Str.dropWhile Str.isWord s in
    let ws1 := Str.takeWhile Str.isSpace afterField in
    match Str.dropWhile Str.isSpace afterField with
    | String "{" afterBrace =>
        let ws2 := Str.takeWhile Str.isSpace afterBrace in
        match Str.dropWhile Str.isSpace afterBrace with
        | String "." (String "." (String "." afterDots)) =>
            let frag := Str.takeWhile Str.isWord afterDots in
            if Str.isEmpty frag then None
            else Some (field, frag,
                       String.length field + String.length ws1 + 1
                       + String.length ws2 + 3 + String.length frag)
        | _ => None
        end
    | _ => None
    end.

(** [content.matchAll(...)]: the leftmost match, then the search goes on
    after it; [skip] counts the characters of the last match still to
    pass. *)
Fixpoint matchAllFieldSpread (skip : nat) (s : string) : list (string * string) :=
  match s with
  | EmptyString => []
  | String _ rest =>
      match skip with
      | S k => matchAllFieldSpread k rest
      | O =>
          match matchFieldSpread s with
          | Some (field, frag, len) =>
              (field, frag) :: matchAllFieldSpread (len - 1) rest
          | None => matchAllFieldSpread 0 rest
          end
      end
  end.

(** The entries given to [Object.fromEntries], in match order. *)
Definition getFieldFragmentMap (content : string) : list (string * string) :=
  matchAllFieldSpread 0 content.

(** Reading a property of an object built by [Object.fromEntries]. *)
Inductive Property :=
  | Own (value : string)
  | Inherited
  | Undefined.

Definition objectPrototypeKeys : list string :=
  ["constructor"; "hasOwnProperty"; "isPrototypeOf"; "propertyIsEnumerable";
   "toLocaleString"; "toString"; "valueOf"; "__proto__";
   "__defineGetter__"; "__defineSetter__"; "__lookupGetter__";
   "__lookupSetter__"].

(** Of two entries with one key the later one stays. *)
Fixpoint ownProperty (entries : list (string * string)) (key : string) : option string :=
  match entries with
  | [] => None
  | (k, v) :: rest =>
      match ownProperty rest key with
      | Some v' => Some v'
      | None => if k =? key then Some v else None
      end
  end.

Definition getProperty (entries : list (string * string)) (key : string) : Property :=
  match ownProperty entries key with
  | Some v => Own v
  | None => if existsb (String.eqb key) objectPrototypeKeys then Inherited else Undefined
  end.

Definition spreadsOf (selections : list Selection) : list string :=
  flat_map (fun s => match s with FragmentSpread n => [n] | _ => [] end) selections.

(** [getTopLevelFragmentSpreads], on the parsed document. *)
Definition getTopLevelFragmentSpreads (doc : DocumentNode) : list string :=
  flat_map (fun def =>
              match def with
              | FragmentDefinition _ _ selections => spreadsOf selections
              | _ => []
              end) doc.

(** [content.match(/fragment (\w+) on/)], group 1. *)
Fixpoint matchFragmentName (s : string) : option string :=
  let here :=
    if Str.startsWith "fragment " s then
      let afterKeyword := Str.drop 9 s in
      let n := Str.takeWhile Str.isWord afterKeyword in
      if negb (Str.isEmpty n)
         && Str.startsWith " on" (Str.dropWhile Str.isWord afterKeyword)
      then Some n else None
    else None in
  match here with
  | Some n => Some n
  | None =>
      match s with
      | String _ rest => matchFragmentName rest
      | EmptyString => None
      end
  end.

Definition Registry := list (string * string).

Definition hasProperty (idsObject : Registry) (key : string) : bool :=
  existsb (fun p => fst p =? key) idsObject.

Definition idInitializer (isStringId : bool) : string :=
  if isStringId
  then "[" ++ Str.dquote ++ "1" ++ Str.dquote ++ ", "
           ++ Str.dquote ++ "2" ++ Str.dquote ++ ", "
           ++ Str.dquote ++ "3" ++ Str.dquote ++ "]"
  else "[1, 2, 3]".

Definition importLine (what from : string) : string :=
  "import { " ++ what ++ " } from " ++ Str.dquote ++ from ++ Str.dquote ++ ";".

(** [handleIdField]: the registry object, [fields] and [imports] after the
    call. *)
Definition handleIdField (type : TypeDef) (idsObject : Registry)
    (baseType : NamedType) (idsImportPath : string)
    (fields imports : list string)
  : Registry * list string * list string :=
  let idsKey := toCamelCase (typeName type) in
  let isStringId := (name baseType =? "String") || (name baseType =? "ID") in
  let idsObject :=
    if negb (hasProperty idsObject idsKey)
    then push idsObject (idsKey, idInitializer isStringId)
    else idsObject in
  (idsObject,
   push fields ("  id: ids." ++ idsKey ++ "[0],"),
   push imports (importLine "ids" idsImportPath)).

(** The generators of [@faker-js/faker] that [getFakerMockForScalar]
    calls. *)
Inductive Generator :=
  | internet_email | person_fullName | person_firstName | person_lastName
  | internet_username | internet_url | phone_number | location_city
  | location_country | location_streetAddress | lorem_words
  | number_int | number_float | datatype_boolean | date_recent.

(** The library draws from a random source of its own.  [fk g n] is what
    generator [g] returns when it makes the [n]-th draw of the process, as
    text: [toString()] of a number, [toISOString()] of a date, [true] or
    [false] for a boolean. *)
Definition Faker := Generator -> nat -> string.

(** [getFakerMockForScalar]: the literal, and the number of draws made so
    far. *)
Definition getFakerMockForScalar (fk : Faker) (draws : nat)
    (scalar fieldName : string) : string * nat :=
  let name := Str.toLowerCase fieldName in
  let quoted g := (Str.JSON_stringify (fk g draws), S draws) in
  let plain g := (fk g draws, S draws) in
  if scalar =? "String" then
    if Str.includes "email" name then quoted internet_email
    else if Str.includes "fullname" name then quoted person_fullName
    else if Str.includes "first" name then quoted person_firstName
    else if Str.includes "last" name then quoted person_lastName
    else if Str.includes "username" name then quoted internet_username
    else if Str.includes "url" name || Str.includes "uri" name
      then quoted internet_url
    else if Str.includes "phone" name then quoted phone_number
    else if Str.includes "city" name then quoted location_city
    else if Str.includes "country" name then quoted location_country
    else if Str.includes "address" name then quoted location_streetAddress
    else quoted lorem_words
  else if scalar =? "Int" then plain number_int
  else if scalar =? "Float" then plain number_float
  else if scalar =? "Boolean" then
    ((if fk datatype_boolean draws =? "true" then "true" else "false"), S draws)
  else if (scalar =? "Date") || (scalar =? "DateTime") then quoted date_recent
  else (Str.JSON_stringify ("mock-" ++ name), draws).

(** *** resolveEnumAccess *)

(** One attempt of [enum\s+Name] at the start of [s]: what follows it. *)
Definition afterEnumHead (enumName s : string) : option string :=
  if Str.startsWith "enum" s then
    let r := Str.drop 4 s in
    let r' := Str.dropWhile Str.isSpace r in
    if negb (Str.isEmpty (Str.takeWhile Str.isSpace r))
       && Str.startsWith enumName r'
    then Some (Str.drop (String.length enumName) r')
    else None
  else None.

(** [\b] after a name. *)
Definition wordEnds (rest : string) : bool :=
  match rest with
  | String c _ => negb (Str.isWord c)
  | EmptyString => true
  end.

(** [new RegExp(`enum\\s+${enumName}\\b`).test(s)] *)
Fixpoint declaresEnum (enumName s : string) : bool :=
  match afterEnumHead enumName s with
  | Some rest => wordEnds rest
  | None => false
  end
  || match s with
     | String _ r => declaresEnum enumName r
     | EmptyString => false
     end.

(** The text before the first [stop], when there is one. *)
Fixpoint upTo (stop : ascii) (s : string) : option string :=
  match s with
  | EmptyString => None
  | String c r =>
      if Ascii.eqb c stop then Some EmptyString
      else option_map (String c) (upTo stop r)
  end.

(** Group 1 of [enum\s+Name\s*{([\s\S]*?)}]. *)
Fixpoint enumBody (enumName s : string) : option string :=
  let here :=
    match afterEnumHead enumName s with
    | Some rest =>
        match Str.dropWhile Str.isSpace rest with
        | String "{" body => upTo "}" body
        | _ => None
        end
    | None => None
    end in
  match here with
  | Some b => Some b
  | None =>
      match s with
      | String _ r => enumBody enumName r
      | EmptyString => None
      end
  end.

(** After an opening [/*]: the length up to and with the first closing
    mark, when no line terminator comes before it. *)
Fixpoint commentLength (s : string) : option nat :=
  if Str.startsWith "*/" s then Some 2
  else match s with
       | String c r => if Str.isNewline c then None else option_map S (commentLength r)
       | EmptyString => None
       end.

(** [l.replace(/\/\*.*?\*\//g, empty)]: the block comments that end
    on their line are removed. *)
Fixpoint stripBlockComments (skip : nat) (s : string) : string :=
  match s with
  | EmptyString => EmptyString
  | String c r =>
      match skip with
      | S k => stripBlockComments k r
      | O =>
          if Str.startsWith "/*" s then
            match commentLength (Str.drop 2 s) with
            | Some n => stripBlockComments (S n) r
            | None => String c (stripBlockComments 0 r)
            end
          else String c (stripBlockComments 0 r)
      end
  end.

(** [l.replace(/\/\/.*$/, empty)]: without the [m] flag [$] is the end
    of the text. *)
Fixpoint stripLineComment (s : string) : string :=
  if Str.startsWith "//" s && Str.all (fun c => negb (Str.isNewline c)) s
  then EmptyString
  else match s with
       | String c r => String c (stripLineComment r)
       | EmptyString => EmptyString
       end.

(** The name of the first member of an enum body; [None] is
    [undefined]. *)
Definition firstEnumKey (body : string) : option string :=
  let cleaned :=
    List.map (fun l => Str.trim (stripLineComment (stripBlockComments 0 l)))
             (Str.split "," body) in
  match List.filter (fun l => negb (Str.isEmpty l)) cleaned with
  | [] => None
  | l :: _ => Some (Str.trim (Str.beforeChar "=" (Str.beforeChar ":" l)))
  end.

Record EnumAccess := { value : string; import : option string }.

Definition unknownEnum : EnumAccess := {| value := "'UNKNOWN'"; import := None |}.

Definition resolveEnumAccess (files : FS) (enumName : string) (dir : Path) : EnumAccess :=
  let matches :=
    List.filter (fun file =>
                   match Fs.readFile files file with
                   | Some text => declaresEnum enumName text
                   | None => false
                   end)
                (Glob.sync Glob.anyTs files) in
  match matches with
  | [] => unknownEnum
  | enumPath :: _ =>
      match Fs.readFile files enumPath with
      | None => unknownEnum
      | Some text =>
          match enumBody enumName text with
          | None => unknownEnum
          | Some body =>
              let key := match firstEnumKey body with
                         | Some k => k
                         | None => "undefined"
                         end in
              {| value := enumName ++ "." ++ key;
                 import := Some (importLine enumName (toRelativeImport dir enumPath)) |}
          end
      end
  end.

(** [extractFragmentName]; [None] when it throws. *)
Definition extractFragmentName (files : FS) (filePath : Path) : option string :=
  match Fs.readFile files filePath with
  | Some content => matchFragmentName content
  | None => None
  end.

(* ================================================================== *)
(** ** The world the generator runs in *)

Inductive JsError :=
  | TypeError (message : string)
  | FragmentNameNotFound (filePath : Path)
  | ENOENT (filePath : Path)
  | GraphQLSyntaxError.

Inductive Event :=
  (** [console.log(`Generating nested factory for ${fragmentToSearch}`)] *)
  | LogGeneratingNested (fragmentToSearch : string)
  (** [console.log(`Generated ${factoryName} at ${factoryFilePath}`)] *)
  | LogGenerated (factoryName : string) (factoryFilePath : Path)
  (** [console.log("ids.ts updated")] *)
  | LogIdsUpdated
  (** [console.log(`Generating factory for ${fragmentPath}`)] *)
  | LogGeneratingFor (fragmentPath : Path)
  (** [console.warn("No .fragment.gql files found. Nothing to generate.")] *)
  | WarnNoFragments
  (** [console.error("Error running factory generator:", err)] *)
  | ErrorRunning (err : JsError)
  (** [fs.writeFileSync(factoryFilePath, fileContent)] *)
  | FileWritten (filePath : Path) (fileContent : string)
  (** [idsSource.saveSync()] *)
  | IdsSaved (ids : Registry).

Record World := {
  files : FS;
  idsFile : Registry;
  trace : list Event;
  draws : nat
}.

Definition emit (e : Event) (w : World) : World :=
  {| files := files w; idsFile := idsFile w;
     trace := push (trace w) e; draws := draws w |}.

Definition writeFileSync (p : Path) (content : string) (w : World) : World :=
  emit (FileWritten p content)
    {| files := Fs.writeFile (files w) p content; idsFile := idsFile w;
       trace := trace w; draws := draws w |}.

Definition saveSync (idsObject : Registry) (w : World) : World :=
  emit (IdsSaved idsObject)
    {| files := files w; idsFile := idsObject;
       trace := trace w; draws := draws w |}.

Definition setDraws (n : nat) (w : World) : World :=
  {| files := files w; idsFile := idsFile w; trace := trace w; draws := n |}.

(** The outcome of a computation: a value, an exception thrown in the
    world reached so far, or the bound on the depth of recursion hit. *)
Inductive Result (A : Type) :=
  | Ok (a : A)
  | Throw (e : JsError) (w : World)
  | OutOfFuel.
Arguments Ok {A} a.
Arguments Throw {A} e w.
Arguments OutOfFuel {A}.

Definition bind {A B} (r : Result A) (k : A -> Result B) : Result B :=
  match r with
  | Ok a => k a
  | Throw e w => Throw e w
  | OutOfFuel => OutOfFuel
  end.

Notation "'let*' x := r 'in' k" := (bind r (fun x => k))
  (at level 10, x pattern, r at level 100, k at level 200).

(** A [for ... of] loop over [l] whose body may throw. *)
Fixpoint forEach {A S} (body : A -> S -> World -> Result (S * World))
    (l : list A) (s : S) (w : World) : Result (S * World) :=
  match l with
  | [] => Ok (s, w)
  | x :: rest => let* (s', w') := body x s w in forEach body rest s' w'
  end.

(** What is external to the repository. *)
Record Env := {
  schema : Schema;                          (* [buildSchema] of schema.graphql *)
  parse : string -> option DocumentNode;    (* [None]: a syntax error is thrown *)
  faker : Faker
}.

(** [path.resolve("src/gql/ids.ts")] *)
Definition IDS_PATH : Path := ["src"; "gql"; "ids.ts"].

(* ================================================================== *)
(** ** src/generateFactories.ts *)

(** The registry object of the call, and the three arrays of the document
    in hand. *)
Record Locals := {
  idsObject : Registry;
  imports : list string;
  nestedImports : list string;
  fields : list string
}.

Definition newline : string := String (ascii_of_nat 10) EmptyString.

Definition isFragmentDefinition (d : DefinitionNode) : bool :=
  match d with FragmentDefinition _ _ _ => true | _ => false end.

Section GenerateFactory.

Variable env : Env.

(** The recursive call [await generateFactory(nestedFragmentPath)]. *)
Variable generateNested : Path -> World -> Result World.

Section Document.

Variable type : TypeDef.
Variable fragmentDir : Path.
Variable idsRelativePath : string.
Variable fieldToFragmentMap : list (string * string).

(** Lines 113-115: [toPascalCase(fieldToFragmentMap[fieldName] || baseType.name)];
    [None] when [toPascalCase] is handed a member of [Object.prototype] and
    throws. *)
Definition fragmentToSearch (fieldName : string) (baseType : NamedType) : option string :=
  match getProperty fieldToFragmentMap fieldName with
  | Own frag => Some (toPascalCase (if Str.isEmpty frag then name baseType else frag))
  | Inherited => None
  | Undefined => Some (toPascalCase (name baseType))
  end.

(** Lines 112-139: the field is taken for a nested fragment. *)
Definition resolveNested (fieldName : string) (gqlFieldType : GraphQLType)
    (st : Locals) (w : World) : Result (Locals * World) :=
  match fragmentToSearch fieldName (unwrapType gqlFieldType) with
  | None => Throw (TypeError "str.replace is not a function") w
  | Some fragmentToSearch =>
      match Glob.sync (Glob.fragmentNamed (toKebabCase fragmentToSearch)) (files w) with
      | [] => Ok (st, w)
      | nestedFragmentPath :: _ =>
          match extractFragmentName (files w) nestedFragmentPath with
          | None => Throw (FragmentNameNotFound nestedFragmentPath) w
          | Some nestedFragmentName =>
              let nestedFactoryName := "createMock" ++ toPascalCase nestedFragmentName in
              let nestedFactoryPath :=
                PathLib.replaceFirst ".fragment.gql" ".factory.ts" nestedFragmentPath in
              let* w :=
                 if negb (Fs.existsSync (files w) nestedFactoryPath)
                 then generateNested nestedFragmentPath
                        (emit (LogGeneratingNested fragmentToSearch) w)
                 else Ok w in
              let relPath := toRelativeImport fragmentDir nestedFactoryPath in
              Ok ({| idsObject := idsObject st;
                     imports := imports st;
                     nestedImports :=
                       push (nestedImports st) (importLine nestedFactoryName relPath);
                     fields :=
                       push (fields st)
                         (if isListTypeDeep gqlFieldType
                          then "  " ++ fieldName ++ ": [" ++ nestedFactoryName ++ "()],"
                          else "  " ++ fieldName ++ ": " ++ nestedFactoryName ++ "(),") |},
                  w)
          end
      end
  end.

(** Lines 84-94: the field named [id]. *)
Definition resolveId (gqlFieldType : GraphQLType)
    (st : Locals) (w : World) : Result (Locals * World) :=
  let '(ids, fields', imports') :=
    handleIdField type (idsObject st) (unwrapType gqlFieldType) idsRelativePath
      (fields st) (imports st) in
  Ok ({| idsObject := ids; imports := imports';
         nestedImports := nestedImports st; fields := fields' |}, w).

(** Lines 96-103: a scalar field. *)
Definition resolveScalar (fieldName : string) (gqlFieldType : GraphQLType)
    (st : Locals) (w : World) : Result (Locals * World) :=
  let '(mockValue, n) :=
    getFakerMockForScalar (faker env) (draws w)
      (name (unwrapType gqlFieldType)) fieldName in
  let line :=
    if isListTypeDeep gqlFieldType
    then "  " ++ fieldName ++ ": [" ++ mockValue ++ "],"
    else "  " ++ fieldName ++ ": " ++ mockValue ++ "," in
  Ok ({| idsObject := idsObject st; imports := imports st;
         nestedImports := nestedImports st;
         fields := push (fields st) line |}, setDraws n w).

(** Lines 105-110: an enum field. *)
Definition resolveEnum (fieldName : string) (gqlFieldType : GraphQLType)
    (st : Locals) (w : World) : Result (Locals * World) :=
  let enumAccess :=
    resolveEnumAccess (files w) (name (unwrapType gqlFieldType)) fragmentDir in
  Ok ({| idsObject := idsObject st; imports := imports st;
         nestedImports :=
           match import enumAccess with
           | Some i => if Str.isEmpty i then nestedImports st
                       else push (nestedImports st) i
           | None => nestedImports st
           end;
         fields :=
           push (fields st) ("  " ++ fieldName ++ ": " ++ value enumAccess ++ ",") |},
      w).

(** Lines 77-140: the body of the loop over the selections. *)
Definition resolveSelection (selection : Selection)
    (st : Locals) (w : World) : Result (Locals * World) :=
  match selection with
  | Field fieldName _ =>
      if negb (hasGetFields (typeKind type))
      then Throw (TypeError "type.getFields is not a function") w
      else
        match getField type fieldName with
        | None =>
            Throw (TypeError "Cannot read properties of undefined (reading 'type')") w
        | Some gqlFieldType =>
            let baseType := unwrapType gqlFieldType in
            if fieldName =? "id" then resolveId gqlFieldType st w
            else if isScalar baseType then resolveScalar fieldName gqlFieldType st w
            else if isEnum baseType then resolveEnum fieldName gqlFieldType st w
            else resolveNested fieldName gqlFieldType st w
        end
  | _ => Ok (st, w)
  end.

(** Lines 142-151: the body of the loop over the top-level spreads. *)
Definition addSpread (fs : FS) (st : Locals) (spread : string) : Locals :=
  let spreadFactory := "createMock" ++ spread in
  match Glob.sync (Glob.factoryNamed (toKebabCase spread)) fs with
  | [] => st
  | found :: _ =>
      let relPath := toRelativeImport fragmentDir found in
      {| idsObject := idsObject st; imports := imports st;
         nestedImports := push (nestedImports st) (importLine spreadFactory relPath);
         fields := unshift (fields st) ("  ..." ++ spreadFactory ++ "(),") |}
  end.

End Document.

(** Lines 155-167. *)
Definition fileContent (st : Locals) (fragmentName : string) : string :=
  let tsTypeName := fragmentName ++ "Fragment" in
  let factoryName := "createMock" ++ fragmentName in
  let defaultObjectName := "default" ++ fragmentName in
  let opening := "const " ++ defaultObjectName ++ ": " ++ tsTypeName ++ " = {" in
  let signature :=
    "export const " ++ factoryName ++ " = (overwrites: Partial<" ++ tsTypeName
    ++ "> = {}): " ++ tsTypeName ++ " => ({" in
  let spreadDefault := "  ..." ++ defaultObjectName ++ "," in
  String.concat newline
    (imports st ++ nestedImports st
     ++ [EmptyString; opening]
     ++ fields st
     ++ ["};"; EmptyString; signature; spreadDefault; "  ...overwrites,"; "});"])%list.

(** Lines 56-153: the three arrays of one fragment, resolved. *)
Definition resolveFragment (filePath : Path) (content : string)
    (fragmentAst : DocumentNode) (fragmentName : string) (type : TypeDef)
    (selections : list Selection) (ids : Registry) (w : World)
  : Result (Locals * World) :=
  let fragmentDir := PathLib.dirname filePath in
  let fragmentBase := toKebabCase fragmentName in
  let idsRelativePath := toRelativeImport fragmentDir IDS_PATH in
  let st := {| idsObject := ids;
               imports := [importLine (fragmentName ++ "Fragment")
                             ("./" ++ fragmentBase ++ ".fragment.generated")];
               nestedImports := [];
               fields := [] |} in
  let fieldToFragmentMap := getFieldFragmentMap content in
  let topLevelSpreads := getTopLevelFragmentSpreads fragmentAst in
  let* (st, w) :=
     forEach (resolveSelection type fragmentDir idsRelativePath fieldToFragmentMap)
       selections st w in
  let st := fold_left (addSpread fragmentDir (files w)) topLevelSpreads st in
  Ok ({| idsObject := idsObject st; imports := imports st;
         nestedImports := nestedImports st;
         fields := push (fields st)
                     ("  __typename: " ++ Str.dquote ++ typeName type ++ Str.dquote ++ ",") |},
      w).

(** Lines 43-171: the body of the loop over the fragment files. *)
Definition processFile (filePath : Path) (ids : Registry) (w : World)
  : Result (Registry * World) :=
  match Fs.readFile (files w) filePath with
  | None => Throw (ENOENT filePath) w
  | Some content =>
      match parse env content with
      | None => Throw GraphQLSyntaxError w
      | Some fragmentAst =>
          match find isFragmentDefinition fragmentAst with
          | Some (FragmentDefinition fragmentName typeCondition selections) =>
              match getType (schema env) typeCondition with
              | None => Ok (ids, w)
              | Some type =>
                  let* (st, w) :=
                     resolveFragment filePath content fragmentAst fragmentName
                       type selections ids w in
                  let factoryName := "createMock" ++ fragmentName in
                  let factoryFilePath :=
                    PathLib.join (PathLib.dirname filePath)
                      (toKebabCase fragmentName ++ ".factory.ts") in
                  Ok (idsObject st,
                      emit (LogGenerated factoryName factoryFilePath)
                        (writeFileSync factoryFilePath (fileContent st fragmentName) w))
              end
          | _ => Ok (ids, w)
          end
      end
  end.

(** Lines 31-175. *)
Definition generateFactoryBody (fragmentPath : Path) (w : World) : Result World :=
  let ids := idsFile w in
  let fragmentFiles :=
    match fragmentPath with
    | [] => Glob.sync Glob.anyFragment (files w)
    | _ => [fragmentPath]
    end in
  let* (ids, w) := forEach processFile fragmentFiles ids w in
  Ok (emit LogIdsUpdated (saveSync ids w)).

End GenerateFactory.

(** [generateFactory], with a bound on the depth of its recursion. *)
Fixpoint generateFactory (env : Env) (fuel : nat) (fragmentPath : Path) (w : World)
  : Result World :=
  match fuel with
  | O => OutOfFuel
  | S fuel' => generateFactoryBody env (generateFactory env fuel') fragmentPath w
  end.

(** Lines 184-187: the loop of [main]. *)
Definition mainLoop (env : Env) (fuel : nat) (fragmentPaths : list Path) (w : World)
  : Result World :=
  let* (_, w) :=
     forEach (fun fragmentPath (_ : unit) w =>
                let* w := generateFactory env fuel fragmentPath
                            (emit (LogGeneratingFor fragmentPath) w) in
                Ok (tt, w))
       fragmentPaths tt w in
  Ok w.

(** [main], with the [catch] of its caller. *)
Definition main (env : Env) (fuel : nat) (w : World) : Result World :=
  match Glob.sync Glob.anyFragment (files w) with
  | [] => Ok (emit WarnNoFragments w)
  | fragmentPaths =>
      match mainLoop env fuel fragmentPaths w with
      | Throw e w => Ok (emit (ErrorRunning e) w)
      | r => r
      end
  end.

(* ================================================================== *)
(** ** Vocabulary of the properties *)

(** The four generation strategies of the specification, and the
    classification in the order the specification gives: the name [id]
    first, then a built-in or declared scalar, then an enum, and an object
    otherwise. *)
Inductive FieldClass := IdField | ScalarField | EnumField | ObjectField.

Definition isBuiltinScalar (t : NamedType) : bool :=
  existsb (String.eqb (name t)) builtinScalars.

Definition isDeclaredScalar (t : NamedType) : bool :=
  match kind t with ScalarType => true | _ => false end.

Definition classify_spec (fieldName : string) (baseType : NamedType) : FieldClass :=
  if fieldName =? "id" then IdField
  else if isBuiltinScalar baseType || isDeclaredScalar baseType then ScalarField
  else if match kind baseType with EnumType => true | _ => false end then EnumField
  else ObjectField.

(** A computation that ends in an exception. *)
Definition failed {A} (r : Result A) : Prop := exists e w, r = Throw e w.

Definition isSave (e : Event) : bool :=
  match e with IdsSaved _ => true | _ => false end.

Definition isNestedStart (e : Event) : bool :=
  match e with LogGeneratingNested _ => true | _ => false end.

Definition isDocumentStart (e : Event) : bool :=
  match e with LogGeneratingFor _ => true | _ => false end.

Definition isError (e : Event) : bool :=
  match e with ErrorRunning _ => true | _ => false end.

(** What reaches the console. *)
Definition isConsole (e : Event) : bool :=
  match e with
  | FileWritten _ _ | IdsSaved _ => false
  | _ => true
  end.

Definition count (p : Event -> bool) (l : list Event) : nat :=
  List.length (List.filter p l).

(** The line of the default object for a selection: none for a spread or
    an inline fragment, at most one for a field, with the expression
    resolved for it. *)
Definition fieldLine (selection : Selection) (expr : option string) : list string :=
  match selection, expr with
  | Field n _, Some e => ["  " ++ n ++ ": " ++ e ++ ","]
  | _, _ => []
  end.

Definition spreadLine (spread : string) : string :=
  "  ...createMock" ++ spread ++ "(),".

(** The top-level spreads whose factory file the glob finds. *)
Definition spreadResolved (fs : FS) (spread : string) : bool :=
  match Glob.sync (Glob.factoryNamed (toKebabCase spread)) fs with
  | [] => false
  | _ => true
  end.

Definition typenameLine (type : TypeDef) : string :=
  "  __typename: " ++ Str.dquote ++ typeName type ++ Str.dquote ++ ",".

(** The lines of the default object that a resolution has produced. *)
Definition resolvedFields (r : Result (Locals * World)) : option (list string) :=
  match r with
  | Ok (st, _) => Some (fields st)
  | _ => None
  end.

(** The saves of the registry and the starts of documents, in the order in
    which a run that returned went through them. *)
Definition isSaveOrStart (e : Event) : bool := isSave e || isDocumentStart e.

Definition persistence (r : Result World) : option (list Event) :=
  match r with
  | Ok w => Some (List.filter isSaveOrStart (trace w))
  | _ => None
  end.

(** [w'] is reached from [w]: no draw is undone, the trace is extended,
    and the extension holds [k] saves of the registry besides one for
    each nested generation it starts. *)
Definition Grows (k : nat) (w w' : World) : Prop :=
  draws w <= draws w'
  /\ exists added,
       trace w' = (trace w ++ added)%list
       /\ count isSave added = k + count isNestedStart added.

(** The environment with another random source. *)
Definition withFaker (env : Env) (fk : Faker) : Env :=
  {| schema := schema env; parse := parse env; faker := fk |}.

(** Two sources that return the same values from draw [n] on. *)
Definition agreeFrom (n : nat) (fk1 fk2 : Faker) : Prop :=
  forall g m, n <= m -> fk1 g m = fk2 g m.

(** What one match of the regular expression has read. *)
Definition fieldSpreadAt (s field frag : string) : Prop :=
  exists ws1 ws2 after,
    s = field ++ ws1 ++ "{" ++ ws2 ++ "..." ++ frag ++ after
    /\ Str.all Str.isSpace ws1 = true /\ Str.all Str.isSpace ws2 = true
    /\ Str.all Str.isWord field = true /\ field <> EmptyString
    /\ Str.all Str.isWord frag = true /\ frag <> EmptyString.

(** The content of the file [p] after a call that returned. *)
Definition artifact (p : Path) (r : Result World) : option string :=
  match r with
  | Ok w => Fs.readFile (files w) p
  | _ => None
  end.

(** What a call that returned has put on the console. *)
Definition consoleOutput (r : Result World) : option (list Event) :=
  match r with
  | Ok w => Some (List.filter isConsole (trace w))
  | _ => None
  end.

(** A document in one line, as the fragments of the examples are written. *)
Fixpoint printSelection (s : Selection) : string :=
  match s with
  | Field n [] => n
  | Field n sub =>
      n ++ " { " ++ String.concat " " (List.map printSelection sub) ++ " }"
  | FragmentSpread n => "..." ++ n
  | InlineFragment (Some t) sub =>
      "... on " ++ t ++ " { " ++ String.concat " " (List.map printSelection sub) ++ " }"
  | InlineFragment None sub =>
      "... { " ++ String.concat " " (List.map printSelection sub) ++ " }"
  end.

Definition printFragment (fragmentName typeCondition : string)
    (selections : list Selection) : string :=
  "fragment " ++ fragmentName ++ " on " ++ typeCondition ++ " { "
  ++ String.concat " " (List.map printSelection selections) ++ " }".

(** A parser that knows the documents of a table. *)
Definition parseTable (table : list (string * DocumentNode)) (content : string)
  : option DocumentNode :=
  option_map snd (find (fun e => fst e =? content) table).

(** The text of a three-element array literal. *)
Definition arrayLiteral (a b c : string) : string :=
  "[" ++ a ++ ", " ++ b ++ ", " ++ c ++ "]".

Definition quoted (s : string) : string := Str.dquote ++ s ++ Str.dquote.

(** The name with its first character in upper case. *)
Definition capitalize (s : string) : string :=
  match s with
  | String a r => String (Str.upperChar a) r
  | EmptyString => EmptyString
  end.

Definition firstChar (s : string) : ascii :=
  match s with
  | String a _ => a
  | EmptyString => " "%char
  end.

(** The text is empty or begins with a character outside the class. *)
Definition stopsAt (p : ascii -> bool) (s : string) : bool :=
  match s with
  | String c _ => negb (p c)
  | EmptyString => true
  end.

Definition noBackslash (s : string) : bool :=
  Str.all (fun c => negb (Ascii.eqb c backslash)) s.

(** The scalars for which [getFakerMockForScalar] calls the library. *)
Definition fakerBacked : list string :=
  ["String"; "Int"; "Float"; "Boolean"; "Date"; "DateTime"].

(** The property names of the registry object. *)
Definition keys (ids : Registry) : list string := List.map fst ids.

(** The registry [b] is the registry [a] with entries added at the end,
    and has distinct keys if [a] has. *)
Definition Kept (a b : Registry) : Prop :=
  (exists added, b = (a ++ added)%list) /\ (NoDup (keys a) -> NoDup (keys b)).

(** A path whose file name ends in [.factory.ts]. *)
Definition isFactoryPath (p : Path) : bool :=
  match List.rev p with
  | file :: _ => Str.endsWith ".factory.ts" file
  | [] => false
  end.

(** The worlds that the effects of the generator lead to: a line on the
    console, a draw, a factory file written, the registry saved. *)
Inductive Reach (w : World) : World -> Prop :=
  | reach_refl : Reach w w
  | reach_emit (e : Event) (w' : World) : Reach w w' -> Reach w (emit e w')
  | reach_draws (n : nat) (w' : World) : Reach w w' -> Reach w (setDraws n w')
  | reach_write (p : Path) (c : string) (w' : World) :
      isFactoryPath p = true -> Reach w w' -> Reach w (writeFileSync p c w')
  | reach_save (ids : Registry) (w' : World) : Reach w w' -> Reach w (saveSync ids w').

(** What holds of the world in which a computation ends, with a value or
    with an exception. *)
Definition afterwards {A} (proj : A -> World) (P : World -> Prop) (r : Result A) : Prop :=
  match r with
  | Ok a => P (proj a)
  | Throw _ w' => P w'
  | OutOfFuel => True
  end.

(** A path whose file name ends in [.fragment.gql]. *)
Definition isFragmentFile (p : Path) : bool :=
  match List.rev p with
  | file :: _ => Str.endsWith ".fragment.gql" file
  | [] => false
  end.

(** Every fragment file of the tree has its factory file beside it, under
    the name that the nested resolution derives for it. *)
Definition factoriesPresent (fs : FS) : bool :=
  forallb (fun p => negb (isFragmentFile p)
                    || Fs.existsSync fs
                         (PathLib.replaceFirst ".fragment.gql" ".factory.ts" p))
          (List.map fst fs).

Definition isField (s : Selection) : bool :=
  match s with Field _ _ => true | _ => false end.

(** [r1] is [r2], unless the bound on the recursion stopped it. *)
Definition approx {A} (r1 r2 : Result A) : Prop := r1 = OutOfFuel \/ r1 = r2.

Definition lastChar (s : string) : ascii :=
  match List.rev (list_ascii_of_string s) with
  | c :: _ => c
  | [] => " "%char
  end.

(** The computation ends within the bound, and if it returns, in a world
    that the effects of the generator lead to. *)
Definition settles {A} (proj : A -> World) (w : World) (r : Result A) : Prop :=
  match r with
  | Ok a => Reach w (proj a)
  | Throw _ _ => True
  | OutOfFuel => False
  end.

Definition noDot (s : string) : bool :=
  Str.all (fun c => negb (Ascii.eqb c ".")) s.

Definition isIdField (s : Selection) : bool :=
  match s with Field n _ => n =? "id" | _ => false end.

(* ================================================================== *)
(** ** A sample project *)

Module Sample.

Definition tID := {| name := "ID"; kind := ScalarType |}.
Definition tInt := {| name := "Int"; kind := ScalarType |}.
Definition tString := {| name := "String"; kind := ScalarType |}.
Definition tRole := {| name := "Role"; kind := EnumType |}.
Definition tUser := {| name := "User"; kind := ObjectType |}.
Definition tProfile := {| name := "Profile"; kind := ObjectType |}.

(** [type User { id: ID!  email: String!  role: Role!  friend: User
    owner: User  tags: [String!]  profile: Profile }],
    [type Profile { id: Int!  bio: String }], [enum Role { ADMIN MEMBER }]. *)
Definition User : TypeDef :=
  {| typeName := "User"; typeKind := ObjectType;
     typeFields :=
       [("id", GraphQLNonNull (Named tID));
        ("email", GraphQLNonNull (Named tString));
        ("role", GraphQLNonNull (Named tRole));
        ("friend", Named tUser);
        ("owner", Named tUser);
        ("tags", GraphQLList (GraphQLNonNull (Named tString)));
        ("profile", Named tProfile)] |}.

Definition Profile : TypeDef :=
  {| typeName := "Profile"; typeKind := ObjectType;
     typeFields :=
       [("id", GraphQLNonNull (Named tInt)); ("bio", Named tString)] |}.

Definition Role : TypeDef :=
  {| typeName := "Role"; typeKind := EnumType; typeFields := [] |}.

Definition sampleSchema : Schema := [User; Profile; Role].

Definition fakerA : Faker := fun g n => "lorem".
Definition fakerB : Faker := fun g n => "ipsum".
(** A source that differs from [fakerA] in its first five draws only. *)
Definition fakerC : Faker := fun g n => if Nat.ltb n 5 then "ipsum" else "lorem".

Definition enumsFile : Path * string :=
  (["src"; "gql"; "enums.ts"],
   "export enum Role { ADMIN = 'ADMIN', MEMBER = 'MEMBER' }").

Definition world (fs : FS) : World :=
  {| files := fs; idsFile := []; trace := []; draws := 0 |}.

(** The scenario of the specification: [User] selects its own type. *)
Definition userSelections : list Selection :=
  [Field "id" []; Field "email" []; Field "role" [];
   Field "friend" [Field "id" []]].
Definition userText : string := printFragment "User" "User" userSelections.
Definition userDoc : DocumentNode := [FragmentDefinition "User" "User" userSelections].
Definition userPath : Path := ["src"; "gql"; "user"; "user.fragment.gql"].

Definition selfFiles : FS := [(userPath, userText); enumsFile].

(** A fragment with two scalar fields. *)
Definition profileSelections : list Selection := [Field "id" []; Field "bio" []].
Definition profileText : string := printFragment "Profile" "Profile" profileSelections.
Definition profileDoc : DocumentNode :=
  [FragmentDefinition "Profile" "Profile" profileSelections].
Definition profilePath : Path := ["src"; "gql"; "profile"; "profile.fragment.gql"].
Definition profileFactory : Path := ["src"; "gql"; "profile"; "profile.factory.ts"].

(** A fragment that spreads two others, whose factories exist. *)
Definition cardSelections : list Selection :=
  [FragmentSpread "Basics"; FragmentSpread "Contact"; Field "email" []].
Definition cardText : string := printFragment "Card" "User" cardSelections.
Definition cardDoc : DocumentNode := [FragmentDefinition "Card" "User" cardSelections].
Definition cardPath : Path := ["src"; "gql"; "card"; "card.fragment.gql"].
Definition cardFiles : FS :=
  [(cardPath, cardText);
   (["src"; "gql"; "basics"; "basics.factory.ts"], "export const createMockBasics = () => ({});");
   (["src"; "gql"; "contact"; "contact.factory.ts"], "export const createMockContact = () => ({});")].

(** A fragment on a type the schema does not have. *)
Definition ghostSelections : list Selection := [Field "id" []].
Definition ghostText : string := printFragment "Ghost" "Missing" ghostSelections.
Definition ghostDoc : DocumentNode := [FragmentDefinition "Ghost" "Missing" ghostSelections].
Definition ghostPath : Path := ["src"; "gql"; "ghost"; "ghost.fragment.gql"].

(** A document with a query and no fragment. *)
Definition queryText : string := "query Me { me { id } }".
Definition queryDoc : DocumentNode := [OperationDefinition [Field "me" [Field "id" []]]].
Definition queryPath : Path := ["src"; "gql"; "me"; "me.fragment.gql"].

(** A fragment with an object field for which no fragment file exists. *)
Definition accountSelections : list Selection :=
  [Field "id" []; Field "profile" [Field "bio" []]; Field "email" []].
Definition accountText : string := printFragment "Account" "User" accountSelections.
Definition accountDoc : DocumentNode :=
  [FragmentDefinition "Account" "User" accountSelections].
Definition accountPath : Path := ["src"; "gql"; "account"; "account.fragment.gql"].

(** A fragment that selects [owner] twice: below [friend] with a spread,
    and at the top with a plain field. *)
Definition teamSelections : list Selection :=
  [Field "friend" [Field "owner" [FragmentSpread "Profile"]];
   Field "owner" [Field "id" []]].
Definition teamText : string := printFragment "Team" "User" teamSelections.
Definition teamDoc : DocumentNode := [FragmentDefinition "Team" "User" teamSelections].

Definition sampleEnv (fk : Faker) : Env :=
  {| schema := sampleSchema;
     parse := parseTable [(userText, userDoc); (profileText, profileDoc);
                          (cardText, cardDoc); (ghostText, ghostDoc);
                          (queryText, queryDoc); (accountText, accountDoc);
                          (teamText, teamDoc)];
     faker := fk |}.


End Sample.


(* ================================================================== *)
(** ** The scenario of the specification, once [user.factory.ts] exists *)

Example scenario_fields :
  resolvedFields
    (resolveFragment (Sample.sampleEnv Sample.fakerA) (fun _ _ => OutOfFuel)
       Sample.userPath Sample.userText Sample.userDoc "User" Sample.User
       Sample.userSelections []
       (Sample.world (Sample.selfFiles
                      ++ [(["src"; "gql"; "user"; "user.factory.ts"], EmptyString)])%list))
  = Some ["  id: ids.user[0],";
          "  email: " ++ quoted "lorem" ++ ",";
          "  role: Role.ADMIN,";
          "  friend: createMockUser(),";
          "  __typename: " ++ quoted "User" ++ ","].
Proof. vm_compute. reflexivity. Qed.

Example scenario_registry :
  option_map idsFile
    (match generateFactory (Sample.sampleEnv Sample.fakerA) 1 Sample.userPath
             (Sample.world (Sample.selfFiles
                            ++ [(["src"; "gql"; "user"; "user.factory.ts"], EmptyString)])%list)
     with Ok w => Some w | _ => None end)
  = Some [("user", arrayLiteral (quoted "1") (quoted "2") (quoted "3"))].
Proof. vm_compute. reflexivity. Qed.

(* ================================================================== *)
(** ** The identifier registry (C4) *)

Lemma hasProperty_push (ids : Registry) (key k v : string) :
  hasProperty (push ids (k, v)) key = hasProperty ids key || (k =? key).
Proof.
  unfold hasProperty, push. rewrite existsb_app. simpl.
  now rewrite orb_false_r.
Qed.

(** C4. [handleIdField] is the registry's get-or-create: an existing entry
    leaves the registry as it is; a missing one is added last, as the three
    string literals 1, 2, 3 for the id scalars String and ID and as the
    three numbers otherwise; a second call, whatever the scalar, changes
    nothing; the emitted field takes element 0 of the entry. *)
Theorem C4_handleIdField_get_or_create
    (type : TypeDef) (ids : Registry) (baseType baseType' : NamedType)
    (idsImportPath : string) (fields imports : list string) :
  let key := toCamelCase (typeName type) in
  let stringLike := (name baseType =? "String") || (name baseType =? "ID") in
  let '(ids', fields', imports') :=
    handleIdField type ids baseType idsImportPath fields imports in
  ids' = (if hasProperty ids key then ids
          else push ids (key, if stringLike
                              then arrayLiteral (quoted "1") (quoted "2") (quoted "3")
                              else arrayLiteral "1" "2" "3"))
  /\ hasProperty ids' key = true
  /\ fst (fst (handleIdField type ids' baseType' idsImportPath fields' imports')) = ids'
  /\ fields' = push fields ("  id: ids." ++ key ++ "[0],").
Proof.
  cbv zeta. unfold handleIdField.
  destruct (hasProperty ids (toCamelCase (typeName type))) eqn:Hhas; cbn [negb fst].
  - split; [reflexivity | split; [assumption | split; [|reflexivity]]].
    now rewrite Hhas.
  - assert (Hnew : forall v, hasProperty (push ids (toCamelCase (typeName type), v))
                               (toCamelCase (typeName type)) = true).
    { intro v. rewrite hasProperty_push, String.eqb_refl. apply orb_true_r. }
    split; [|split; [apply Hnew | split; [|reflexivity]]].
    + destruct ((name baseType =? "String") || (name baseType =? "ID")); reflexivity.
    + now rewrite Hnew.
Qed.

(* ================================================================== *)
(** ** Field classification (C9) *)

Lemma isScalar_spec (t : NamedType) :
  isScalar t = isBuiltinScalar t || isDeclaredScalar t.
Proof. unfold isScalar, instanceOfScalar, isBuiltinScalar, isDeclaredScalar. apply orb_comm. Qed.


(* ================================================================== *)
(** ** Recursion into nested fragments (C1) *)

(** One more level of recursion is entered on the same file, in a world
    that differs by one line of log. *)
Lemma self_reference_step (generateNested : Path -> World -> Result World)
    (ids : Registry) (tr : list Event) (d : nat) :
  generateNested Sample.userPath
    {| files := Sample.selfFiles; idsFile := ids;
       trace := push tr (LogGeneratingNested "User"); draws := S d |} = OutOfFuel ->
  generateFactoryBody (Sample.sampleEnv Sample.fakerA) generateNested Sample.userPath
    {| files := Sample.selfFiles; idsFile := ids; trace := tr; draws := d |} = OutOfFuel.
Proof.
  intro H. vm_compute in H. vm_compute. rewrite H. reflexivity.
Qed.

(** C1, on the code.  The scenario of the specification: [User] has the
    field [friend: User], the fragment [User] selects [friend { id }], and
    no factory has been written yet.  Whatever the registry, the log and
    the draws so far, and however deep the recursion is allowed to go,
    [generateFactory] has not returned: each level finds no
    [user.factory.ts] and calls itself on [user.fragment.gql] again. *)
Theorem C1_self_reference_exhausts_every_bound (fuel : nat) :
  forall (ids : Registry) (tr : list Event) (d : nat),
    generateFactory (Sample.sampleEnv Sample.fakerA) fuel Sample.userPath
      {| files := Sample.selfFiles; idsFile := ids; trace := tr; draws := d |}
    = OutOfFuel.
Proof.
  induction fuel as [|fuel IH]; intros ids tr d.
  - reflexivity.
  - cbn [generateFactory].
    apply self_reference_step.
    apply IH.
Qed.

(* ================================================================== *)
(** ** Documents and fields that are passed over (C6, C7, C8) *)

Lemma find_none_of_existsb {A} (p : A -> bool) (l : list A) :
  existsb p l = false -> find p l = None.
Proof.
  induction l as [|x l IH]; cbn; [reflexivity|].
  destruct (p x); cbn; [discriminate | exact IH].
Qed.

Lemma failed_Ok {A} (a : A) : ~ failed (Ok a).
Proof. intros [e [w H]]. discriminate H. Qed.

(** C7, against the specification.  A document that holds a query and no fragment
    does not fail: the call returns, having written no factory, and the
    only thing it reports is that the registry was saved. *)
Lemma C7_no_fragment_does_not_fail :
  generateFactory (Sample.sampleEnv Sample.fakerA) 1 Sample.queryPath
    (Sample.world [(Sample.queryPath, Sample.queryText)])
  = Ok {| files := [(Sample.queryPath, Sample.queryText)]; idsFile := [];
          trace := [IdsSaved []; LogIdsUpdated]; draws := 0 |}
  /\ ~ failed (generateFactory (Sample.sampleEnv Sample.fakerA) 1 Sample.queryPath
                 (Sample.world [(Sample.queryPath, Sample.queryText)])).
Proof.
  assert (H : generateFactory (Sample.sampleEnv Sample.fakerA) 1 Sample.queryPath
                (Sample.world [(Sample.queryPath, Sample.queryText)])
              = Ok {| files := [(Sample.queryPath, Sample.queryText)]; idsFile := [];
                      trace := [IdsSaved []; LogIdsUpdated]; draws := 0 |})
    by (vm_compute; reflexivity).
  split; [exact H | rewrite H; apply failed_Ok].
Qed.

(** C7, as the code has it.  A document that parses and holds no fragment
    definition is passed over in silence: no exception, no factory, the
    registry object and the world as they were; the loop goes on with the
    next file. *)
Theorem C7_no_fragment_is_skipped
    (env : Env) (generateNested : Path -> World -> Result World)
    (filePath : Path) (rest : list Path) (ids : Registry) (w : World)
    (content : string) (doc : DocumentNode) :
  Fs.readFile (files w) filePath = Some content ->
  parse env content = Some doc ->
  existsb isFragmentDefinition doc = false ->
  processFile env generateNested filePath ids w = Ok (ids, w)
  /\ forEach (processFile env generateNested) (filePath :: rest) ids w
     = forEach (processFile env generateNested) rest ids w.
Proof.
  intros Hread Hparse Hnone.
  assert (H : processFile env generateNested filePath ids w = Ok (ids, w)).
  { unfold processFile. rewrite Hread, Hparse.
    now rewrite (find_none_of_existsb _ _ Hnone). }
  split; [exact H|]. cbn [forEach]. now rewrite H.
Qed.

(** The document of [Sample.queryPath] is passed over. *)
Lemma C7_no_fragment_is_skipped_witness :
  processFile (Sample.sampleEnv Sample.fakerA) (fun _ _ => OutOfFuel)
    Sample.queryPath [] (Sample.world [(Sample.queryPath, Sample.queryText)])
  = Ok ([], Sample.world [(Sample.queryPath, Sample.queryText)])
  /\ forEach (processFile (Sample.sampleEnv Sample.fakerA) (fun _ _ => OutOfFuel))
       [Sample.queryPath; Sample.profilePath] []
       (Sample.world [(Sample.queryPath, Sample.queryText)])
     = forEach (processFile (Sample.sampleEnv Sample.fakerA) (fun _ _ => OutOfFuel))
         [Sample.profilePath] []
         (Sample.world [(Sample.queryPath, Sample.queryText)]).
Proof.
  apply (C7_no_fragment_is_skipped (Sample.sampleEnv Sample.fakerA) (fun _ _ => OutOfFuel)
           Sample.queryPath [Sample.profilePath] []
           (Sample.world [(Sample.queryPath, Sample.queryText)])
           Sample.queryText Sample.queryDoc); reflexivity.
Defined.

(** C6, against the specification.  A fragment on a type that the schema does not
    have does not fail either. *)
Lemma C6_missing_type_does_not_fail :
  generateFactory (Sample.sampleEnv Sample.fakerA) 1 Sample.ghostPath
    (Sample.world [(Sample.ghostPath, Sample.ghostText)])
  = Ok {| files := [(Sample.ghostPath, Sample.ghostText)]; idsFile := [];
          trace := [IdsSaved []; LogIdsUpdated]; draws := 0 |}
  /\ ~ failed (generateFactory (Sample.sampleEnv Sample.fakerA) 1 Sample.ghostPath
                 (Sample.world [(Sample.ghostPath, Sample.ghostText)])).
Proof.
  assert (H : generateFactory (Sample.sampleEnv Sample.fakerA) 1 Sample.ghostPath
                (Sample.world [(Sample.ghostPath, Sample.ghostText)])
              = Ok {| files := [(Sample.ghostPath, Sample.ghostText)]; idsFile := [];
                      trace := [IdsSaved []; LogIdsUpdated]; draws := 0 |})
    by (vm_compute; reflexivity).
  split; [exact H | rewrite H; apply failed_Ok].
Qed.

(** C6, as the code has it.  A fragment whose type condition names a type
    that [schema.getType] does not find is passed over in silence, like a
    document without a fragment; the loop goes on with the next file. *)
Theorem C6_missing_type_is_skipped
    (env : Env) (generateNested : Path -> World -> Result World)
    (filePath : Path) (rest : list Path) (ids : Registry) (w : World)
    (content : string) (doc : DocumentNode)
    (fragmentName typeCondition : string) (selections : list Selection) :
  Fs.readFile (files w) filePath = Some content ->
  parse env content = Some doc ->
  find isFragmentDefinition doc
    = Some (FragmentDefinition fragmentName typeCondition selections) ->
  getType (schema env) typeCondition = None ->
  processFile env generateNested filePath ids w = Ok (ids, w)
  /\ forEach (processFile env generateNested) (filePath :: rest) ids w
     = forEach (processFile env generateNested) rest ids w.
Proof.
  intros Hread Hparse Hfrag Htype.
  assert (H : processFile env generateNested filePath ids w = Ok (ids, w)).
  { unfold processFile. now rewrite Hread, Hparse, Hfrag, Htype. }
  split; [exact H|]. cbn [forEach]. now rewrite H.
Qed.

(** The fragment on [Missing] is passed over. *)
Lemma C6_missing_type_is_skipped_witness :
  processFile (Sample.sampleEnv Sample.fakerA) (fun _ _ => OutOfFuel)
    Sample.ghostPath [] (Sample.world [(Sample.ghostPath, Sample.ghostText)])
  = Ok ([], Sample.world [(Sample.ghostPath, Sample.ghostText)])
  /\ forEach (processFile (Sample.sampleEnv Sample.fakerA) (fun _ _ => OutOfFuel))
       [Sample.ghostPath; Sample.profilePath] []
       (Sample.world [(Sample.ghostPath, Sample.ghostText)])
     = forEach (processFile (Sample.sampleEnv Sample.fakerA) (fun _ _ => OutOfFuel))
         [Sample.profilePath] []
         (Sample.world [(Sample.ghostPath, Sample.ghostText)]).
Proof.
  apply (C6_missing_type_is_skipped (Sample.sampleEnv Sample.fakerA) (fun _ _ => OutOfFuel)
           Sample.ghostPath [Sample.profilePath] []
           (Sample.world [(Sample.ghostPath, Sample.ghostText)])
           Sample.ghostText Sample.ghostDoc "Ghost" "Missing" Sample.ghostSelections);
    reflexivity.
Defined.

(** A selected field that the type does not have makes the whole call
    throw a [TypeError]. *)
Lemma missing_field_throws
    (env : Env) (generateNested : Path -> World -> Result World)
    (type : TypeDef) (fragmentDir : Path) (idsRelativePath : string)
    (fieldToFragmentMap : list (string * string))
    (fieldName : string) (sub : list Selection) (st : Locals) (w : World) :
  hasGetFields (typeKind type) = true ->
  getField type fieldName = None ->
  resolveSelection env generateNested type fragmentDir idsRelativePath
    fieldToFragmentMap (Field fieldName sub) st w
  = Throw (TypeError "Cannot read properties of undefined (reading 'type')") w.
Proof. intros H1 H2. unfold resolveSelection. now rewrite H1, H2. Qed.




(* ================================================================== *)
(** ** The association of fields with nested fragments (C10) *)

Lemma append_assoc (a b c : string) : (a ++ b) ++ c = a ++ (b ++ c).
Proof. induction a as [|x a IH]; cbn; [reflexivity | now rewrite IH]. Qed.

Lemma takeWhile_dropWhile (p : ascii -> bool) (s : string) :
  Str.takeWhile p s ++ Str.dropWhile p s = s.
Proof.
  induction s as [|c s IH]; cbn; [reflexivity|].
  destruct (p c); cbn; [now rewrite IH | reflexivity].
Qed.

Lemma all_takeWhile (p : ascii -> bool) (s : string) :
  Str.all p (Str.takeWhile p s) = true.
Proof.
  induction s as [|c s IH]; cbn; [reflexivity|].
  destruct (p c) eqn:E; cbn; [now rewrite E | reflexivity].
Qed.

Lemma isEmpty_false (s : string) : Str.isEmpty s = false -> s <> EmptyString.
Proof. destruct s; [discriminate | intros _ H; discriminate H]. Qed.

Lemma matchFieldSpread_sound (s field frag : string) (len : nat) :
  matchFieldSpread s = Some (field, frag, len) -> fieldSpreadAt s field frag.
Proof.
  unfold matchFieldSpread. intro H.
  destruct (Str.isEmpty (Str.takeWhile Str.isWord s)) eqn:Efield; [discriminate|].
  pose proof (takeWhile_dropWhile Str.isWord s) as Hs.
  pose proof (takeWhile_dropWhile Str.isSpace (Str.dropWhile Str.isWord s)) as Hws1.
  destruct (Str.dropWhile Str.isSpace (Str.dropWhile Str.isWord s))
    as [|c1 afterBrace]; [discriminate|].
  destruct (Ascii.eqb_spec c1 "{") as [->|Hc1];
    [|destruct c1 as [[] [] [] [] [] [] [] []]; try discriminate H; now elim Hc1].
  pose proof (takeWhile_dropWhile Str.isSpace afterBrace) as Hws2.
  destruct (Str.dropWhile Str.isSpace afterBrace) as [|d1 [|d2 [|d3 afterDots]]];
    try discriminate H.
  - destruct d1 as [[] [] [] [] [] [] [] []]; discriminate H.
  - destruct d1 as [[] [] [] [] [] [] [] []]; try discriminate H;
      destruct d2 as [[] [] [] [] [] [] [] []]; discriminate H.
  - destruct (Ascii.eqb_spec d1 ".") as [->|Hd1];
      [|destruct d1 as [[] [] [] [] [] [] [] []]; try discriminate H; now elim Hd1].
    destruct (Ascii.eqb_spec d2 ".") as [->|Hd2];
      [|destruct d2 as [[] [] [] [] [] [] [] []]; try discriminate H; now elim Hd2].
    destruct (Ascii.eqb_spec d3 ".") as [->|Hd3];
      [|destruct d3 as [[] [] [] [] [] [] [] []]; try discriminate H; now elim Hd3].
    destruct (Str.isEmpty (Str.takeWhile Str.isWord afterDots)) eqn:Efrag; [discriminate|].
    injection H as <- <- _.
    exists (Str.takeWhile Str.isSpace (Str.dropWhile Str.isWord s)),
           (Str.takeWhile Str.isSpace afterBrace),
           (Str.dropWhile Str.isWord afterDots).
    repeat match goal with |- _ /\ _ => split end;
      try apply all_takeWhile; try (now apply isEmpty_false).
    rewrite <- Hs at 1. f_equal. rewrite <- Hws1 at 1. f_equal.
    cbn. f_equal. rewrite <- Hws2 at 1. f_equal.
    cbn. do 3 f_equal. symmetry. apply takeWhile_dropWhile.
Qed.

Lemma matchAll_sound (field frag : string) (s : string) :
  forall skip,
    In (field, frag) (matchAllFieldSpread skip s) ->
    exists before rest, s = before ++ rest /\ fieldSpreadAt rest field frag.
Proof.
  induction s as [|c s IH]; intros skip Hin; [contradiction|].
  assert (Hlater : forall k, In (field, frag) (matchAllFieldSpread k s) ->
                     exists before rest, String c s = before ++ rest
                                         /\ fieldSpreadAt rest field frag).
  { intros k Hk. destruct (IH k Hk) as [before [rest [-> Hat]]].
    exists (String c before), rest. split; [reflexivity | exact Hat]. }
  cbn [matchAllFieldSpread] in Hin.
  destruct skip as [|k]; [|now apply (Hlater k)].
  destruct (matchFieldSpread (String c s)) as [[[f g] len]|] eqn:Hm;
    [|now apply (Hlater 0)].
  destruct Hin as [Heq|Hin]; [|now apply (Hlater (len - 1))].
  injection Heq as -> ->.
  exists EmptyString, (String c s). split; [reflexivity|].
  now apply matchFieldSpread_sound with len.
Qed.

Lemma ownProperty_In (entries : list (string * string)) (key v : string) :
  ownProperty entries key = Some v -> In (key, v) entries.
Proof.
  induction entries as [|[k v'] entries IH]; cbn; [discriminate|].
  destruct (ownProperty entries key) as [v''|].
  - intro H. injection H as ->. right. now apply IH.
  - destruct (String.eqb_spec k key) as [->|]; [|discriminate].
    intro H. injection H as ->. now left.
Qed.



(* ================================================================== *)
(** ** The order of the emitted fields (C3) *)

Lemma push_app {A} (l : list A) (x : A) : push l x = (l ++ [x])%list.
Proof. reflexivity. Qed.

(** Equations between texts built by concatenation. *)
Ltac same_text := cbn; rewrite ?append_assoc; cbn; reflexivity.
Ltac same_last_line st := apply (f_equal (fun x => (fields st ++ [x])%list)); same_text.

Section FieldOrder.

Variable env : Env.
Variable generateNested : Path -> World -> Result World.
Variable type : TypeDef.
Variable fragmentDir : Path.
Variable idsRelativePath : string.
Variable fieldToFragmentMap : list (string * string).

Let step := resolveSelection env generateNested type fragmentDir idsRelativePath
              fieldToFragmentMap.

(** A selection adds its own line, or nothing, at the end. *)
Lemma resolveSelection_fields (selection : Selection) (st st' : Locals) (w w' : World) :
  step selection st w = Ok (st', w') ->
  exists expr, fields st' = (fields st ++ fieldLine selection expr)%list.
Proof.
  subst step. unfold resolveSelection.
  destruct selection as [fieldName sub| |];
    try (intro H; injection H as <- _; exists None; cbn; now rewrite app_nil_r).
  destruct (negb (hasGetFields (typeKind type))); [discriminate|].
  destruct (getField type fieldName) as [gqlFieldType|]; [|discriminate].
  destruct (String.eqb_spec fieldName "id") as [->|_].
  { unfold resolveId, handleIdField. intro H. injection H as <- _. cbn [fields].
    exists (Some ("ids." ++ toCamelCase (typeName type) ++ "[0]")).
    cbn [fieldLine]. rewrite push_app. same_last_line st. }
  destruct (isScalar (unwrapType gqlFieldType)).
  { unfold resolveScalar.
    destruct (getFakerMockForScalar _ _ _ _) as [mockValue n].
    intro H. injection H as <- _. cbn [fields]. rewrite push_app.
    destruct (isListTypeDeep gqlFieldType).
    - exists (Some ("[" ++ mockValue ++ "]")). cbn [fieldLine]. same_last_line st.
    - exists (Some mockValue). reflexivity. }
  destruct (isEnum (unwrapType gqlFieldType)).
  { unfold resolveEnum. intro H. injection H as <- _. cbn [fields].
    eexists (Some _). reflexivity. }
  unfold resolveNested.
  destruct (fragmentToSearch _ _ _) as [target|]; [|discriminate].
  destruct (Glob.sync _ _) as [|nestedFragmentPath ?].
  { intro H. injection H as <- _. exists None. cbn. now rewrite app_nil_r. }
  destruct (extractFragmentName _ _) as [nestedFragmentName|]; [|discriminate].
  destruct (if negb _ then _ else _) as [w1| |]; cbn [bind]; try discriminate.
  intro H. injection H as <- _. cbn [fields]. rewrite push_app.
  destruct (isListTypeDeep gqlFieldType).
  - exists (Some ("[" ++ ("createMock" ++ toPascalCase nestedFragmentName) ++ "()]")).
    cbn [fieldLine]. same_last_line st.
  - exists (Some (("createMock" ++ toPascalCase nestedFragmentName) ++ "()")).
    cbn [fieldLine]. same_last_line st.
Qed.

(** The loop adds the lines of the selections in the order of the
    selections. *)
Lemma forEach_selection_fields (selections : list Selection) :
  forall (st st' : Locals) (w w' : World),
    forEach step selections st w = Ok (st', w') ->
    exists exprs,
      List.length exprs = List.length selections
      /\ fields st'
         = (fields st
            ++ flat_map (fun p => fieldLine (fst p) (snd p)) (combine selections exprs))%list.
Proof.
  induction selections as [|selection selections IH]; intros st st' w w' H.
  - injection H as <- _. exists []. cbn. now rewrite app_nil_r.
  - cbn [forEach] in H.
    destruct (step selection st w) as [[st1 w1]| |] eqn:Hstep; cbn [bind] in H;
      try discriminate.
    destruct (resolveSelection_fields _ _ _ _ _ Hstep) as [expr Hexpr].
    destruct (IH _ _ _ _ H) as [exprs [Hlen Hfields]].
    exists (expr :: exprs). split; [cbn; now rewrite Hlen|].
    rewrite Hfields, Hexpr. cbn. now rewrite app_assoc.
Qed.

(** Each resolved spread is put in front of what is there: the spreads
    come out in the reverse of their order. *)
Lemma addSpread_fields (fs : FS) (spreads : list string) :
  forall st : Locals,
    fields (fold_left (addSpread fragmentDir fs) spreads st)
    = (List.rev (List.map spreadLine (List.filter (spreadResolved fs) spreads))
       ++ fields st)%list.
Proof.
  induction spreads as [|spread spreads IH]; intro st; [reflexivity|].
  cbn [fold_left List.filter]. rewrite IH.
  unfold addSpread, spreadResolved.
  destruct (Glob.sync _ fs); [reflexivity|].
  cbn [fields List.map List.rev unshift]. now rewrite <- app_assoc.
Qed.

End FieldOrder.




(* ================================================================== *)
(** ** What a call adds to the trace (C5) *)

Lemma count_app (p : Event -> bool) (a b : list Event) :
  count p (a ++ b)%list = count p a + count p b.
Proof. unfold count. now rewrite filter_app, length_app. Qed.

Lemma Grows_refl (w : World) : Grows 0 w w.
Proof.
  split; [apply Nat.le_refl|]. exists []. split; [now rewrite app_nil_r | reflexivity].
Qed.

Lemma Grows_trans (j k : nat) (a b c : World) :
  Grows j a b -> Grows k b c -> Grows (j + k) a c.
Proof.
  intros [Hd1 [l1 [Ht1 Hc1]]] [Hd2 [l2 [Ht2 Hc2]]]. split; [lia|].
  exists (l1 ++ l2)%list. split; [now rewrite Ht2, Ht1, app_assoc|].
  rewrite !count_app. lia.
Qed.

Lemma Grows_emit (e : Event) (w : World) :
  isSave e = false -> isNestedStart e = false -> Grows 0 w (emit e w).
Proof.
  intros Hs Hn. split; [apply Nat.le_refl|]. exists [e]. split; [reflexivity|].
  unfold count. cbn. now rewrite Hs, Hn.
Qed.

Lemma Grows_step (w1 w2 w3 : World) :
  Grows 0 w1 w2 -> Grows 0 w2 w3 -> Grows 0 w1 w3.
Proof. apply (Grows_trans 0 0). Qed.

Lemma forEach_Grows {A S} (body : A -> S -> World -> Result (S * World)) (l : list A) :
  (forall x s w s' w', body x s w = Ok (s', w') -> Grows 0 w w') ->
  forall s w s' w', forEach body l s w = Ok (s', w') -> Grows 0 w w'.
Proof.
  intro Hbody. induction l as [|x l IH]; intros s w s' w' H.
  - injection H as _ <-. apply Grows_refl.
  - cbn [forEach] in H.
    destruct (body x s w) as [[s1 w1]| |] eqn:Hx; cbn [bind] in H; try discriminate.
    eapply Grows_step; [eapply Hbody, Hx | eapply IH, H].
Qed.

Lemma getFakerMockForScalar_draws (fk : Faker) (d : nat) (scalar fieldName : string) :
  d <= snd (getFakerMockForScalar fk d scalar fieldName).
Proof.
  unfold getFakerMockForScalar.
  repeat match goal with |- context [if ?b then _ else _] => destruct b end;
    cbn; lia.
Qed.

Section Growth.

Variable env : Env.
Variable generateNested : Path -> World -> Result World.
Hypothesis nested_grows :
  forall p w w', generateNested p w = Ok w' -> Grows 1 w w'.

Lemma resolveSelection_Grows type fragmentDir idsRelativePath fieldToFragmentMap
    (selection : Selection) (st st' : Locals) (w w' : World) :
  resolveSelection env generateNested type fragmentDir idsRelativePath
    fieldToFragmentMap selection st w = Ok (st', w') ->
  Grows 0 w w'.
Proof.
  unfold resolveSelection.
  destruct selection as [fieldName sub| |];
    try (intro H; injection H as _ <-; apply Grows_refl).
  destruct (negb (hasGetFields (typeKind type))); [discriminate|].
  destruct (getField type fieldName) as [gqlFieldType|]; [|discriminate].
  destruct (fieldName =? "id").
  { unfold resolveId. destruct (handleIdField _ _ _ _ _ _) as [[? ?] ?].
    intro H. injection H as _ <-. apply Grows_refl. }
  destruct (isScalar (unwrapType gqlFieldType)).
  { unfold resolveScalar.
    pose proof (getFakerMockForScalar_draws (faker env) (draws w)
                  (name (unwrapType gqlFieldType)) fieldName) as Hd.
    destruct (getFakerMockForScalar _ _ _ _) as [mockValue n].
    intro H. injection H as _ <-. split; [exact Hd|].
    exists []. split; [cbn; now rewrite app_nil_r | reflexivity]. }
  destruct (isEnum (unwrapType gqlFieldType)).
  { unfold resolveEnum. intro H. injection H as _ <-. apply Grows_refl. }
  unfold resolveNested.
  destruct (fragmentToSearch _ _ _) as [target|]; [|discriminate].
  destruct (Glob.sync _ _) as [|nestedFragmentPath ?].
  { intro H. injection H as _ <-. apply Grows_refl. }
  destruct (extractFragmentName _ _) as [nestedFragmentName|]; [|discriminate].
  destruct (negb (Fs.existsSync _ _)).
  - destruct (generateNested _ _) as [w1| |] eqn:Hnested; cbn [bind]; try discriminate.
    intro H. injection H as _ <-.
    destruct (nested_grows _ _ _ Hnested) as [Hd [added [Ht Hc]]].
    split; [exact Hd|]. exists (LogGeneratingNested target :: added).
    split; [rewrite Ht; cbn; unfold push; now rewrite <- app_assoc|].
    unfold count in *. cbn. lia.
  - cbn [bind]. intro H. injection H as _ <-. apply Grows_refl.
Qed.

Lemma processFile_Grows (filePath : Path) (ids ids' : Registry) (w w' : World) :
  processFile env generateNested filePath ids w = Ok (ids', w') -> Grows 0 w w'.
Proof.
  unfold processFile.
  destruct (Fs.readFile _ _) as [content|]; [|discriminate].
  destruct (parse env content) as [fragmentAst|]; [|discriminate].
  destruct (find _ _) as [[fragmentName typeCondition selections| |]|];
    try (intro H; injection H as _ <-; apply Grows_refl).
  destruct (getType _ _) as [type|];
    [|intro H; injection H as _ <-; apply Grows_refl].
  unfold resolveFragment.
  destruct (forEach _ selections _ w) as [[st1 w1]| |] eqn:Hloop; cbn [bind];
    try discriminate.
  intro H. injection H as _ <-.
  eapply Grows_step.
  - eapply forEach_Grows, Hloop. intros x s v s' v'. apply resolveSelection_Grows.
  - eapply Grows_step; [|apply Grows_emit; reflexivity].
    split; [apply Nat.le_refl|]. eexists [_]. split; reflexivity.
Qed.

(** A call that returns has saved the registry once for itself, as the
    last thing it did before its last line of log. *)
Lemma generateFactoryBody_Grows (fragmentPath : Path) (w w' : World) :
  generateFactoryBody env generateNested fragmentPath w = Ok w' ->
  Grows 1 w w'
  /\ exists before ids, trace w' = (before ++ [IdsSaved ids; LogIdsUpdated])%list.
Proof.
  unfold generateFactoryBody.
  destruct (forEach _ _ _ w) as [[ids1 w1]| |] eqn:Hloop; cbn [bind]; try discriminate.
  intro H. injection H as <-. split.
  - apply (Grows_trans 0 1 w w1).
    + eapply forEach_Grows, Hloop. intros x s v s' v'. apply processFile_Grows.
    + split; [apply Nat.le_refl|]. exists [IdsSaved ids1; LogIdsUpdated].
      split; [cbn; unfold push; now rewrite <- app_assoc | reflexivity].
  - exists (trace w1), ids1. cbn. unfold push. now rewrite <- app_assoc.
Qed.

End Growth.

Lemma generateFactory_Grows (env : Env) (fuel : nat) :
  forall p w w', generateFactory env fuel p w = Ok w' -> Grows 1 w w'.
Proof.
  induction fuel as [|fuel IH]; intros p w w' H; [discriminate|].
  cbn [generateFactory] in H. now apply generateFactoryBody_Grows in H.
Qed.

Lemma mainLoop_Grows (env : Env) (fuel : nat) (fragmentPaths : list Path) :
  forall w w', mainLoop env fuel fragmentPaths w = Ok w' ->
               Grows (List.length fragmentPaths) w w'.
Proof.
  unfold mainLoop.
  induction fragmentPaths as [|p paths IH]; intros w w' H.
  - injection H as <-. apply Grows_refl.
  - cbn [forEach] in H.
    destruct (generateFactory env fuel p _) as [w1| |] eqn:Hcall; cbn [bind] in H;
      try discriminate.
    apply generateFactory_Grows in Hcall.
    apply (Grows_trans 1 (List.length paths) w w1 w'); [|now apply IH].
    apply (Grows_trans 0 1 w (emit (LogGeneratingFor p) w) w1);
      [apply Grows_emit; reflexivity | exact Hcall].
Qed.




(* ================================================================== *)
(** ** Dependence on the random source (C2) *)

Lemma getFakerMockForScalar_agree (fk1 fk2 : Faker) (d : nat) (scalar fieldName : string) :
  (forall g, fk1 g d = fk2 g d) ->
  getFakerMockForScalar fk1 d scalar fieldName
  = getFakerMockForScalar fk2 d scalar fieldName.
Proof. intro H. unfold getFakerMockForScalar. now rewrite !H. Qed.

Lemma forEach_agree {A S} (n0 : nat)
    (body1 body2 : A -> S -> World -> Result (S * World)) (l : list A) :
  (forall x s w, n0 <= draws w -> body1 x s w = body2 x s w) ->
  (forall x s w s' w', body1 x s w = Ok (s', w') -> draws w <= draws w') ->
  forall s w, n0 <= draws w -> forEach body1 l s w = forEach body2 l s w.
Proof.
  intros Hsame Hmono. induction l as [|x l IH]; intros s w Hw; [reflexivity|].
  cbn [forEach]. rewrite <- (Hsame x s w Hw).
  destruct (body1 x s w) as [[s1 w1]| |] eqn:Hx; cbn [bind]; try reflexivity.
  apply IH. apply Hmono in Hx. lia.
Qed.

Section Agreement.

Variable env : Env.
Variables fk1 fk2 : Faker.
Variables generate1 generate2 : Path -> World -> Result World.
Variable n0 : nat.
Hypothesis sources_agree : agreeFrom n0 fk1 fk2.
Hypothesis nested_agree :
  forall p w, n0 <= draws w -> generate1 p w = generate2 p w.
Hypothesis nested_grows :
  forall p w w', generate1 p w = Ok w' -> Grows 1 w w'.

Lemma resolveSelection_agree type fragmentDir idsRelativePath fieldToFragmentMap
    (selection : Selection) (st : Locals) (w : World) :
  n0 <= draws w ->
  resolveSelection (withFaker env fk1) generate1 type fragmentDir idsRelativePath
    fieldToFragmentMap selection st w
  = resolveSelection (withFaker env fk2) generate2 type fragmentDir idsRelativePath
      fieldToFragmentMap selection st w.
Proof.
  intro Hw. unfold resolveSelection.
  destruct selection as [fieldName sub| |]; try reflexivity.
  destruct (negb (hasGetFields (typeKind type))); [reflexivity|].
  destruct (getField type fieldName) as [gqlFieldType|]; [|reflexivity].
  destruct (fieldName =? "id"); [reflexivity|].
  destruct (isScalar (unwrapType gqlFieldType)).
  { unfold resolveScalar. cbn [faker withFaker].
    rewrite (getFakerMockForScalar_agree fk1 fk2); [reflexivity|].
    intro g. now apply sources_agree. }
  destruct (isEnum (unwrapType gqlFieldType)); [reflexivity|].
  unfold resolveNested.
  destruct (fragmentToSearch _ _ _) as [target|]; [|reflexivity].
  destruct (Glob.sync _ _) as [|nestedFragmentPath ?]; [reflexivity|].
  destruct (extractFragmentName _ _) as [nestedFragmentName|]; [|reflexivity].
  destruct (negb (Fs.existsSync _ _)); [|reflexivity].
  now rewrite nested_agree.
Qed.

Lemma processFile_agree (filePath : Path) (ids : Registry) (w : World) :
  n0 <= draws w ->
  processFile (withFaker env fk1) generate1 filePath ids w
  = processFile (withFaker env fk2) generate2 filePath ids w.
Proof.
  intro Hw. unfold processFile. cbn [parse schema withFaker].
  destruct (Fs.readFile _ _) as [content|]; [|reflexivity].
  destruct (parse env content) as [fragmentAst|]; [|reflexivity].
  destruct (find _ _) as [[fragmentName typeCondition selections| |]|]; try reflexivity.
  destruct (getType _ _) as [type|]; [|reflexivity].
  unfold resolveFragment.
  rewrite (forEach_agree n0 _
             (resolveSelection (withFaker env fk2) generate2 type
                (PathLib.dirname filePath)
                (toRelativeImport (PathLib.dirname filePath) IDS_PATH)
                (getFieldFragmentMap content)));
    [reflexivity| | |exact Hw].
  - intros x s v Hv. now apply resolveSelection_agree.
  - intros x s v s' v' Hx.
    now apply (resolveSelection_Grows _ _ nested_grows) in Hx as [Hd _].
Qed.

Lemma generateFactoryBody_agree (fragmentPath : Path) (w : World) :
  n0 <= draws w ->
  generateFactoryBody (withFaker env fk1) generate1 fragmentPath w
  = generateFactoryBody (withFaker env fk2) generate2 fragmentPath w.
Proof.
  intro Hw. unfold generateFactoryBody.
  rewrite (forEach_agree n0 _ (processFile (withFaker env fk2) generate2));
    [reflexivity| | |exact Hw].
  - intros x s v Hv. now apply processFile_agree.
  - intros x s v s' v' Hx.
    now apply (processFile_Grows _ _ nested_grows) in Hx as [Hd _].
Qed.

End Agreement.

Lemma generateFactory_agree (env : Env) (fk1 fk2 : Faker) (n0 : nat) :
  agreeFrom n0 fk1 fk2 ->
  forall fuel p w,
    n0 <= draws w ->
    generateFactory (withFaker env fk1) fuel p w
    = generateFactory (withFaker env fk2) fuel p w.
Proof.
  intros Hagree. induction fuel as [|fuel IH]; intros p w Hw; [reflexivity|].
  cbn [generateFactory].
  apply (generateFactoryBody_agree env fk1 fk2 _ _ n0 Hagree IH); [|exact Hw].
  apply generateFactory_Grows.
Qed.


Lemma main_agree (env : Env) (fk1 fk2 : Faker) (fuel : nat) (w : World) :
  agreeFrom (draws w) fk1 fk2 ->
  main (withFaker env fk1) fuel w = main (withFaker env fk2) fuel w.
Proof.
  intro Hagree. unfold main, mainLoop.
  destruct (Glob.sync Glob.anyFragment (files w)) as [|p paths]; [reflexivity|].
  rewrite (forEach_agree (draws w) _
             (fun fragmentPath (_ : unit) v =>
                let* v := generateFactory (withFaker env fk2) fuel fragmentPath
                            (emit (LogGeneratingFor fragmentPath) v) in
                Ok (tt, v)));
    [reflexivity| | |apply Nat.le_refl].
  - intros x s v Hv.
    now rewrite (generateFactory_agree env fk1 fk2 (draws w) Hagree).
  - intros x s v s' v' Hx.
    destruct (generateFactory _ fuel x _) as [v1| |] eqn:Hcall; cbn [bind] in Hx;
      try discriminate.
    injection Hx as _ <-. now apply generateFactory_Grows in Hcall as [Hd _].
Qed.



(* ================================================================== *)
(** ** Naming conventions: toKebabCase, toPascalCase *)

Ltac by_cases_on_char c :=
  destruct c as [[] [] [] [] [] [] [] []]; vm_compute; intros;
  try reflexivity; try discriminate.

Lemma lowerChar_not_upper (c : ascii) : Str.isUpper (Str.lowerChar c) = false.
Proof. by_cases_on_char c. Qed.

Lemma lowerChar_of_not_upper (c : ascii) :
  Str.isUpper c = false -> Str.lowerChar c = c.
Proof. unfold Str.lowerChar. now intros ->. Qed.

Lemma upperChar_of_not_lower (c : ascii) :
  Str.isLower c = false -> Str.upperChar c = c.
Proof. unfold Str.upperChar. now intros ->. Qed.

Lemma upperChar_not_lower (c : ascii) : Str.isLower (Str.upperChar c) = false.
Proof. by_cases_on_char c. Qed.

Lemma upperChar_word (c : ascii) : Str.isWord c = true -> Str.isWord (Str.upperChar c) = true.
Proof. revert c. intro c. by_cases_on_char c. Qed.

Lemma word_is_not_dash (c : ascii) : Str.isWord c = true -> Ascii.eqb c "-" = false.
Proof. by_cases_on_char c. Qed.

Lemma all_map_lowerChar (s : string) :
  Str.all (fun c => negb (Str.isUpper c)) (Str.toLowerCase s) = true.
Proof.
  induction s as [|c s IH]; cbn; [reflexivity|].
  now rewrite lowerChar_not_upper, IH.
Qed.

Lemma toLowerCase_fixed (s : string) :
  Str.all (fun c => negb (Str.isUpper c)) s = true -> Str.toLowerCase s = s.
Proof.
  induction s as [|c s IH]; cbn; [reflexivity|].
  intro H. apply andb_prop in H as [Hc Hs].
  rewrite (IH Hs), lowerChar_of_not_upper; [reflexivity|].
  now destruct (Str.isUpper c).
Qed.

Lemma dashed_fixed (s : string) :
  Str.all (fun c => negb (Str.isUpper c)) s = true -> dashed s = s.
Proof.
  induction s as [|a s IH]; [reflexivity|].
  intro H. cbn in H. apply andb_prop in H as [_ Hs].
  cbn [dashed]. destruct s as [|b s']; [reflexivity|].
  rewrite (IH Hs). cbn in Hs. apply andb_prop in Hs as [Hb _].
  destruct (Str.isUpper b); [discriminate|].
  now rewrite andb_false_r.
Qed.

(** X1. The result of [toKebabCase] holds no upper-case letter, and
    [toKebabCase] leaves such a result as it is: file names are derived
    the same way from a name and from its kebab form. *)
Theorem toKebabCase_lower_and_idempotent (str : string) :
  Str.all (fun c => negb (Str.isUpper c)) (toKebabCase str) = true
  /\ toKebabCase (toKebabCase str) = toKebabCase str.
Proof.
  assert (H : Str.all (fun c => negb (Str.isUpper c)) (toKebabCase str) = true)
    by apply all_map_lowerChar.
  split; [exact H|].
  unfold toKebabCase at 1. rewrite (dashed_fixed _ H). now apply toLowerCase_fixed.
Qed.

Lemma pascalTail_word (s : string) :
  Str.all Str.isWord s = true -> pascalTail s = s.
Proof.
  induction s as [|a s IH]; [reflexivity|].
  intro H. cbn in H. apply andb_prop in H as [Ha Hs].
  cbn [pascalTail]. destruct s as [|b s']; [reflexivity|].
  now rewrite (word_is_not_dash a Ha), (IH Hs).
Qed.

(** X2. On a name made of word characters, as GraphQL names are,
    [toPascalCase] upper-cases the first character and changes nothing
    else; a second application changes nothing, and a name that does not
    start with a lower-case letter is left as it is. *)
Theorem toPascalCase_of_word (str : string) :
  Str.all Str.isWord str = true ->
  toPascalCase str = capitalize str
  /\ toPascalCase (toPascalCase str) = toPascalCase str
  /\ (Str.isLower (firstChar str) = false -> toPascalCase str = str).
Proof.
  intro H. destruct str as [|a r]; [repeat split|].
  cbn in H. apply andb_prop in H as [Ha Hr].
  assert (Hcap : toPascalCase (String a r) = String (Str.upperChar a) r).
  { cbn [toPascalCase]. now rewrite Ha, (pascalTail_word r Hr). }
  split; [exact Hcap|]. split.
  - rewrite Hcap. cbn [toPascalCase].
    rewrite (upperChar_word a Ha), (pascalTail_word r Hr).
    now rewrite (upperChar_of_not_lower _ (upperChar_not_lower a)).
  - cbn [firstChar]. intro Hl. now rewrite Hcap, (upperChar_of_not_lower a Hl).
Qed.

Lemma toPascalCase_of_word_witness :
  toPascalCase "userProfile" = capitalize "userProfile"
  /\ toPascalCase (toPascalCase "userProfile") = toPascalCase "userProfile"
  /\ (Str.isLower (firstChar "userProfile") = false
      -> toPascalCase "userProfile" = "userProfile").
Proof. apply (toPascalCase_of_word "userProfile"). reflexivity. Defined.

(* ================================================================== *)
(** ** Import specifiers: toRelativeImport *)

Lemma relative_below (from rest : Path) :
  PathLib.relative from (from ++ rest)%list = rest.
Proof.
  induction from as [|f from IH]; cbn.
  - now destruct rest.
  - now rewrite String.eqb_refl.
Qed.

Lemma relative_beside (base : Path) (d f : string) :
  d <> f -> PathLib.relative (base ++ [d])%list (base ++ [f])%list = [".."; f].
Proof.
  intro Hdf. induction base as [|b base IH]; cbn.
  - apply String.eqb_neq in Hdf. now rewrite Hdf.
  - now rewrite String.eqb_refl.
Qed.

Lemma map_slashes_fixed (s : string) :
  noBackslash s = true ->
  Str.map (fun c => if Ascii.eqb c backslash then "/"%char else c) s = s.
Proof.
  unfold noBackslash. induction s as [|c s IH]; [reflexivity|].
  cbn [Str.all Str.map]. intro H. apply andb_prop in H as [Hc Hs].
  rewrite (IH Hs). now destruct (Ascii.eqb c backslash).
Qed.

Lemma noBackslash_app (a b : string) :
  noBackslash (a ++ b) = noBackslash a && noBackslash b.
Proof.
  unfold noBackslash. induction a as [|c a IH]; [reflexivity|].
  cbn [append Str.all]. now rewrite IH, andb_assoc.
Qed.

Lemma endsWith_app (a suffix : string) : Str.endsWith suffix (a ++ suffix) = true.
Proof.
  induction a as [|c a IH]; cbn [append].
  - destruct suffix; cbn; now rewrite ?String.eqb_refl, ?Ascii.eqb_refl.
  - cbn [Str.endsWith]. rewrite IH. apply orb_true_r.
Qed.

Lemma length_append (a b : string) :
  String.length (a ++ b) = String.length a + String.length b.
Proof. induction a as [|c a IH]; cbn; [reflexivity | now rewrite IH]. Qed.

Lemma take_app (a b : string) : Str.take (String.length a) (a ++ b) = a.
Proof.
  unfold Str.take. induction a as [|c a IH]; cbn.
  - now destruct b.
  - now rewrite IH.
Qed.

Lemma strip_ts (a : string) :
  Str.take (String.length (a ++ ".ts") - 3) (a ++ ".ts") = a.
Proof.
  rewrite length_append. cbn [String.length].
  replace (String.length a + 3 - 3) with (String.length a) by lia.
  apply take_app.
Qed.

(** X3. The import specifier of a TypeScript file is explicit-relative and
    has lost its extension: a file of the directory itself is imported as
    [./file], a file of the parent directory as [../file]. *)
Theorem toRelativeImport_near (base : Path) (d file : string) :
  noBackslash file = true ->
  Str.startsWith "." file = false ->
  d <> file ++ ".ts" ->
  toRelativeImport base (PathLib.join base (file ++ ".ts")) = "./" ++ file
  /\ toRelativeImport (PathLib.join base d) (PathLib.join base (file ++ ".ts"))
     = "../" ++ file.
Proof.
  intros Hfile Hdot Hd. unfold toRelativeImport, PathLib.join, push. split.
  - rewrite relative_below. cbn [PathLib.text String.concat].
    rewrite map_slashes_fixed by (rewrite noBackslash_app, Hfile; reflexivity).
    now rewrite endsWith_app, strip_ts, Hdot.
  - rewrite (relative_beside base d _ Hd). cbn [PathLib.text String.concat].
    replace (".." ++ "/" ++ file ++ ".ts") with (("../" ++ file) ++ ".ts") by reflexivity.
    rewrite map_slashes_fixed
      by (rewrite !noBackslash_app, Hfile; reflexivity).
    now rewrite endsWith_app, strip_ts.
Qed.

Lemma toRelativeImport_near_witness :
  toRelativeImport ["src"; "gql"] (PathLib.join ["src"; "gql"] ("ids" ++ ".ts"))
  = "./" ++ "ids"
  /\ toRelativeImport (PathLib.join ["src"; "gql"] "user")
       (PathLib.join ["src"; "gql"] ("ids" ++ ".ts"))
     = "../" ++ "ids".
Proof.
  apply (toRelativeImport_near ["src"; "gql"] "user" "ids");
    [reflexivity | reflexivity | intro H; discriminate H].
Defined.

(* ================================================================== *)
(** ** The scan for fields with a leading spread: getFieldFragmentMap *)

Lemma takeWhile_app (p : ascii -> bool) (a b : string) :
  Str.all p a = true -> stopsAt p b = true ->
  Str.takeWhile p (a ++ b) = a /\ Str.dropWhile p (a ++ b) = b.
Proof.
  intros Ha Hb. induction a as [|c a IH]; cbn [append].
  - destruct b as [|c b]; [split; reflexivity|].
    cbn in Hb |- *. destruct (p c); [discriminate | split; reflexivity].
  - cbn in Ha. apply andb_prop in Ha as [Hc Ha]. cbn. rewrite Hc.
    destruct (IH Ha) as [-> ->]. split; reflexivity.
Qed.

Lemma space_is_not_word (c : ascii) : Str.isSpace c = true -> Str.isWord c = false.
Proof. by_cases_on_char c. Qed.

Lemma spaces_stop_word (ws rest : string) :
  Str.all Str.isSpace ws = true -> stopsAt Str.isWord (ws ++ String "{" rest) = true.
Proof.
  destruct ws as [|c ws]; [reflexivity|]. cbn. intro H.
  apply andb_prop in H as [Hc _]. now rewrite (space_is_not_word c Hc).
Qed.

Lemma isEmpty_of_nonempty (s : string) : s <> EmptyString -> Str.isEmpty s = false.
Proof. destruct s; [intro H; now elim H | reflexivity]. Qed.

Lemma matchFieldSpread_complete (f ws1 ws2 g after : string) :
  Str.all Str.isWord f = true -> f <> EmptyString ->
  Str.all Str.isSpace ws1 = true -> Str.all Str.isSpace ws2 = true ->
  Str.all Str.isWord g = true -> g <> EmptyString ->
  stopsAt Str.isWord after = true ->
  matchFieldSpread (f ++ ws1 ++ "{" ++ ws2 ++ "..." ++ g ++ after)
  = Some (f, g, String.length f + String.length ws1 + 1
                + String.length ws2 + 3 + String.length g).
Proof.
  intros Hf Hf0 Hws1 Hws2 Hg Hg0 Hafter. unfold matchFieldSpread.
  destruct (takeWhile_app Str.isWord f (ws1 ++ "{" ++ ws2 ++ "..." ++ g ++ after) Hf
              (spaces_stop_word ws1 _ Hws1)) as [-> ->].
  rewrite (isEmpty_of_nonempty f Hf0).
  destruct (takeWhile_app Str.isSpace ws1 ("{" ++ ws2 ++ "..." ++ g ++ after) Hws1
              eq_refl) as [-> ->].
  cbn [append].
  destruct (takeWhile_app Str.isSpace ws2
              (String "." (String "." (String "." (g ++ after)))) Hws2 eq_refl)
    as [-> ->].
  destruct (takeWhile_app Str.isWord g after Hg Hafter) as [-> _].
  now rewrite (isEmpty_of_nonempty g Hg0).
Qed.

Lemma matchAll_skip (m after : string) :
  matchAllFieldSpread (String.length m) (m ++ after) = matchAllFieldSpread 0 after.
Proof. induction m as [|c m IH]; [reflexivity | exact IH]. Qed.

Lemma matchAll_pass (before rest : string) :
  Str.all (fun c => negb (Str.isWord c)) before = true ->
  matchAllFieldSpread 0 (before ++ rest) = matchAllFieldSpread 0 rest.
Proof.
  induction before as [|c before IH]; [reflexivity|].
  intro H. cbn in H. apply andb_prop in H as [Hc Hb].
  cbn [append matchAllFieldSpread].
  assert (Hnone : matchFieldSpread (String c (before ++ rest)) = None).
  { unfold matchFieldSpread. cbn [Str.takeWhile].
    destruct (Str.isWord c); [discriminate | reflexivity]. }
  rewrite Hnone. now apply IH.
Qed.

(** X4. A text that begins, after characters that are not word
    characters, with a field name, an opening brace and a spread, up to
    white space, gives the pair of the two names as its first entry, and
    the scan goes on after the name of the spread. *)
Theorem getFieldFragmentMap_first_entry (before f ws1 ws2 g after : string) :
  Str.all (fun c => negb (Str.isWord c)) before = true ->
  Str.all Str.isWord f = true -> f <> EmptyString ->
  Str.all Str.isSpace ws1 = true -> Str.all Str.isSpace ws2 = true ->
  Str.all Str.isWord g = true -> g <> EmptyString ->
  stopsAt Str.isWord after = true ->
  getFieldFragmentMap (before ++ f ++ ws1 ++ "{" ++ ws2 ++ "..." ++ g ++ after)
  = (f, g) :: getFieldFragmentMap after.
Proof.
  intros Hbefore Hf Hf0 Hws1 Hws2 Hg Hg0 Hafter. unfold getFieldFragmentMap.
  rewrite (matchAll_pass before _ Hbefore).
  pose proof (matchFieldSpread_complete f ws1 ws2 g after Hf Hf0 Hws1 Hws2 Hg Hg0 Hafter)
    as Hmatch.
  remember (ws1 ++ "{" ++ ws2 ++ "..." ++ g ++ after) as tail eqn:Htail.
  destruct f as [|c f']; [now elim Hf0|].
  cbn [append] in Hmatch |- *. cbn [matchAllFieldSpread]. rewrite Hmatch.
  f_equal. subst tail.
  replace (f' ++ ws1 ++ "{" ++ ws2 ++ "..." ++ g ++ after)
    with ((f' ++ ws1 ++ "{" ++ ws2 ++ "..." ++ g) ++ after)
    by (now rewrite !append_assoc).
  replace (String.length (String c f') + String.length ws1 + 1
           + String.length ws2 + 3 + String.length g - 1)
    with (String.length (f' ++ ws1 ++ "{" ++ ws2 ++ "..." ++ g));
    [apply matchAll_skip|].
  rewrite !length_append. cbn [String.length]. lia.
Qed.

Lemma getFieldFragmentMap_first_entry_witness :
  getFieldFragmentMap ("{ " ++ "owner" ++ " " ++ "{" ++ " " ++ "..." ++ "Profile" ++ " } }")
  = ("owner", "Profile") :: getFieldFragmentMap " } }".
Proof.
  apply (getFieldFragmentMap_first_entry "{ " "owner" " " " " "Profile" " } }");
    try reflexivity; intro H; discriminate H.
Defined.

(* ================================================================== *)
(** ** The name of a fragment file: extractFragmentName *)

Lemma prefix_split (p s : string) :
  prefix p s = true -> s = p ++ Str.drop (String.length p) s.
Proof.
  revert s. induction p as [|a p IH]; intros s H; [now destruct s|].
  destruct s as [|b s]; [discriminate|]. cbn in H |- *.
  destruct (ascii_dec a b) as [->|]; [|discriminate].
  now rewrite <- (IH s H).
Qed.

Lemma matchFragmentName_sound (s n : string) :
  matchFragmentName s = Some n ->
  exists before after,
    s = before ++ "fragment " ++ n ++ " on" ++ after
    /\ Str.all Str.isWord n = true /\ n <> EmptyString.
Proof.
  induction s as [|c s IH].
  - cbn. discriminate.
  - intro H.
    assert (Hhere :
      (Str.startsWith "fragment " (String c s) = true
       /\ n = Str.takeWhile Str.isWord (Str.drop 9 (String c s))
       /\ Str.isEmpty n = false
       /\ Str.startsWith " on" (Str.dropWhile Str.isWord (Str.drop 9 (String c s))) = true)
      \/ matchFragmentName s = Some n).
    { cbn [matchFragmentName] in H.
      destruct (Str.startsWith "fragment " (String c s)); [|now right].
      destruct (negb (Str.isEmpty (Str.takeWhile Str.isWord (Str.drop 9 (String c s)))))
        eqn:Hn; cbn [andb] in H; [|now right].
      destruct (Str.startsWith " on" _) eqn:Hon; [|now right].
      injection H as <-. left. repeat split; try assumption.
      now destruct (Str.isEmpty _). }
    destruct Hhere as [[Hstart [-> [Hn Hon]]]|Hlater].
    + exists EmptyString,
        (Str.drop 3 (Str.dropWhile Str.isWord (Str.drop 9 (String c s)))).
      split; [|split; [apply all_takeWhile | now apply isEmpty_false]].
      pose proof (prefix_split _ _ Hstart) as E1.
      change (String.length "fragment ") with 9 in E1.
      pose proof (takeWhile_dropWhile Str.isWord (Str.drop 9 (String c s))) as E2.
      pose proof (prefix_split " on" _ Hon) as E3.
      change (String.length " on") with 3 in E3.
      rewrite <- E3, E2, <- E1. reflexivity.
    + destruct (IH Hlater) as [before [after [-> Hn]]].
      exists (String c before), after. split; [reflexivity | exact Hn].
Qed.

(** X5. Whatever [extractFragmentName] returns for a file is a name that
    the file holds between the word [fragment] and the word [on]: it is
    read off the text of the file, and of nothing else. *)
Theorem extractFragmentName_sound (fs : FS) (filePath : Path) (n : string) :
  extractFragmentName fs filePath = Some n ->
  exists content before after,
    Fs.readFile fs filePath = Some content
    /\ content = before ++ "fragment " ++ n ++ " on" ++ after
    /\ Str.all Str.isWord n = true /\ n <> EmptyString.
Proof.
  unfold extractFragmentName.
  destruct (Fs.readFile fs filePath) as [content|]; [|discriminate].
  intro H. destruct (matchFragmentName_sound _ _ H) as [before [after Hn]].
  now exists content, before, after.
Qed.

Lemma extractFragmentName_sound_witness :
  exists content before after,
    Fs.readFile Sample.selfFiles Sample.userPath = Some content
    /\ content = before ++ "fragment " ++ "User" ++ " on" ++ after
    /\ Str.all Str.isWord "User" = true /\ "User" <> EmptyString.
Proof.
  apply (extractFragmentName_sound Sample.selfFiles Sample.userPath "User").
  reflexivity.
Defined.

Lemma prefix_app (p s : string) : prefix p (p ++ s) = true.
Proof.
  induction p as [|a p IH]; [now destruct s|].
  cbn [append prefix]. destruct (ascii_dec a a) as [_|Hne]; [exact IH | now elim Hne].
Qed.

Lemma prefix_other_head (a b : ascii) (p s : string) :
  a <> b -> prefix (String a p) (String b s) = false.
Proof.
  intro Hab. cbn [prefix]. destruct (ascii_dec a b) as [Heq|_]; [now elim Hab | reflexivity].
Qed.

Lemma matchFragmentName_unfold (s : string) :
  matchFragmentName s
  = match (if Str.startsWith "fragment " s
           then if negb (Str.isEmpty (Str.takeWhile Str.isWord (Str.drop 9 s)))
                   && Str.startsWith " on" (Str.dropWhile Str.isWord (Str.drop 9 s))
                then Some (Str.takeWhile Str.isWord (Str.drop 9 s)) else None
           else None) with
    | Some n => Some n
    | None => match s with
              | String _ rest => matchFragmentName rest
              | EmptyString => None
              end
    end.
Proof. destruct s; reflexivity. Qed.

Lemma space_is_not_f (c : ascii) : Str.isSpace c = true -> "f"%char <> c.
Proof. intros H <-. discriminate H. Qed.

Lemma matchFragmentName_pass (ws rest : string) :
  Str.all Str.isSpace ws = true ->
  matchFragmentName (ws ++ rest) = matchFragmentName rest.
Proof.
  induction ws as [|c ws IH]; [reflexivity|].
  intro H. cbn in H. apply andb_prop in H as [Hc Hws].
  cbn [append]. rewrite matchFragmentName_unfold. unfold Str.startsWith at 1.
  rewrite (prefix_other_head _ _ _ _ (space_is_not_f c Hc)). now apply IH.
Qed.

(** X6. A file that begins, after white space, with the header of a
    fragment gives the name of that fragment, whatever follows. *)
Theorem extractFragmentName_of_header
    (fs : FS) (filePath : Path) (ws n after : string) :
  Str.all Str.isSpace ws = true ->
  Str.all Str.isWord n = true -> n <> EmptyString ->
  Fs.readFile fs filePath = Some (ws ++ "fragment " ++ n ++ " on" ++ after) ->
  extractFragmentName fs filePath = Some n.
Proof.
  intros Hws Hn Hn0 Hread. unfold extractFragmentName. rewrite Hread.
  rewrite (matchFragmentName_pass ws _ Hws), matchFragmentName_unfold.
  destruct (takeWhile_app Str.isWord n (" on" ++ after) Hn eq_refl) as [Htake Hdrop].
  unfold Str.startsWith. rewrite prefix_app.
  change (Str.drop 9 ("fragment " ++ n ++ " on" ++ after)) with (n ++ " on" ++ after).
  rewrite Htake, Hdrop, prefix_app, (isEmpty_of_nonempty n Hn0).
  reflexivity.
Qed.

Lemma extractFragmentName_of_header_witness :
  extractFragmentName Sample.selfFiles Sample.userPath = Some "User".
Proof.
  apply (extractFragmentName_of_header Sample.selfFiles Sample.userPath
           EmptyString "User" " User { id email role friend { id } }");
    try reflexivity.
  intro H. discriminate H.
Defined.

(* ================================================================== *)
(** ** Literals for scalars and enums *)

(** X7. [getFakerMockForScalar] draws from the random source exactly once
    for the scalars String, Int, Float, Boolean, Date and DateTime, and
    not at all for any other scalar, whose literal is the fixed text
    [mock-] followed by the field name in lower case, whatever the
    source. *)
Theorem getFakerMockForScalar_draws_once
    (fk : Faker) (d : nat) (scalar fieldName : string) :
  let '(literal, n) := getFakerMockForScalar fk d scalar fieldName in
  if existsb (String.eqb scalar) fakerBacked
  then n = S d
  else n = d /\ literal = Str.JSON_stringify ("mock-" ++ Str.toLowerCase fieldName).
Proof.
  unfold getFakerMockForScalar, fakerBacked. cbn [existsb]. cbv beta zeta.
  destruct (scalar =? "String"); cbn [orb].
  { repeat (match goal with
             | |- context [if ?b then _ else _] => destruct b
             end; cbv beta iota);
      reflexivity. }
  destruct (scalar =? "Int"); [reflexivity|].
  destruct (scalar =? "Float"); [reflexivity|].
  destruct (scalar =? "Boolean"); [reflexivity|].
  destruct (scalar =? "Date"); [reflexivity|].
  destruct (scalar =? "DateTime"); [reflexivity|].
  split; reflexivity.
Qed.

Lemma readFile_In (fs : FS) (p : Path) (text : string) :
  Fs.readFile fs p = Some text -> In (p, text) fs.
Proof.
  induction fs as [|[q c] fs IH]; cbn; [discriminate|].
  unfold path_eqb. destruct (list_eq_dec string_dec q p) as [->|_].
  - intro H. injection H as ->. now left.
  - intro H. right. now apply IH.
Qed.

Lemma filter_nil {A} (f : A -> bool) (l : list A) :
  (forall x, In x l -> f x = false) -> List.filter f l = [].
Proof.
  induction l as [|x l IH]; intro H; [reflexivity|].
  cbn. rewrite (H x (or_introl eq_refl)). apply IH.
  intros y Hy. apply H. now right.
Qed.

(** X8. When no TypeScript file under [src] holds a declaration of the
    enum, [resolveEnumAccess] gives the literal ['UNKNOWN'] and no
    import. *)
Theorem resolveEnumAccess_unknown (fs : FS) (enumName : string) (dir : Path) :
  (forall file text,
      In (file, text) fs -> Glob.anyTs file = true ->
      declaresEnum enumName text = false) ->
  resolveEnumAccess fs enumName dir = {| value := "'UNKNOWN'"; import := None |}.
Proof.
  intro Hnone. unfold resolveEnumAccess.
  rewrite filter_nil; [reflexivity|].
  intros file Hfile. unfold Glob.sync in Hfile.
  apply in_map_iff in Hfile as [[file' text'] [<- Hin]].
  apply filter_In in Hin as [_ Hts]. cbn [fst] in Hts |- *.
  destruct (Fs.readFile fs file') as [text|] eqn:Hread; [|reflexivity].
  now apply (Hnone file' text (readFile_In _ _ _ Hread)).
Qed.

Lemma resolveEnumAccess_unknown_witness :
  resolveEnumAccess [Sample.enumsFile] "Status" ["src"; "gql"; "user"]
  = {| value := "'UNKNOWN'"; import := None |}.
Proof.
  apply (resolveEnumAccess_unknown [Sample.enumsFile] "Status" ["src"; "gql"; "user"]).
  intros file text [H|[]] _. injection H as <- <-. reflexivity.
Defined.

(* ================================================================== *)
(** ** The registry over a call *)

Lemma Kept_refl (a : Registry) : Kept a a.
Proof. split; [exists []; now rewrite app_nil_r | trivial]. Qed.

Lemma Kept_trans (a b c : Registry) : Kept a b -> Kept b c -> Kept a c.
Proof.
  intros [[l1 ->] H1] [[l2 ->] H2]. split; [|auto].
  exists (l1 ++ l2)%list. now rewrite app_assoc.
Qed.

Lemma hasProperty_false (ids : Registry) (key : string) :
  hasProperty ids key = false -> ~ In key (keys ids).
Proof.
  unfold hasProperty, keys. intros Hno Hin.
  apply in_map_iff in Hin as [[k v] [<- Hin]]. cbn [fst] in Hno.
  assert (existsb (fun p => fst p =? k) ids = true); [|congruence].
  apply existsb_exists. exists (k, v). split; [exact Hin | apply String.eqb_refl].
Qed.

Lemma NoDup_snoc {A} (l : list A) (x : A) :
  NoDup l -> ~ In x l -> NoDup (l ++ [x]).
Proof.
  induction 1 as [|y l Hy Hl IH]; intro Hx; cbn.
  - constructor; [intros [] | constructor].
  - constructor.
    + intro Hin. apply in_app_or in Hin as [Hin|[->|[]]]; [now apply Hy|].
      apply Hx. now left.
    + apply IH. intro Hin. apply Hx. now right.
Qed.

Lemma handleIdField_Kept type ids baseType idsImportPath fields imports :
  Kept ids (fst (fst (handleIdField type ids baseType idsImportPath fields imports))).
Proof.
  unfold handleIdField. cbn [fst].
  destruct (hasProperty ids (toCamelCase (typeName type))) eqn:Hhas; cbn [negb].
  - apply Kept_refl.
  - split; [now eexists|]. intro Hnd. unfold keys, push. rewrite map_app.
    apply NoDup_snoc; [exact Hnd | now apply hasProperty_false].
Qed.

Lemma forEach_state {A S} (R : S -> S -> Prop)
    (body : A -> S -> World -> Result (S * World)) (l : list A) :
  (forall s, R s s) -> (forall a b c, R a b -> R b c -> R a c) ->
  (forall x s w s' w', body x s w = Ok (s', w') -> R s s') ->
  forall s w s' w', forEach body l s w = Ok (s', w') -> R s s'.
Proof.
  intros Hrefl Htrans Hbody. induction l as [|x l IH]; intros s w s' w' H.
  - injection H as <- _. apply Hrefl.
  - cbn [forEach] in H.
    destruct (body x s w) as [[s1 w1]| |] eqn:Hx; cbn [bind] in H; try discriminate.
    eapply Htrans; [eapply Hbody, Hx | eapply IH, H].
Qed.

Lemma addSpread_idsObject fragmentDir (fs : FS) (spreads : list string) :
  forall st, idsObject (fold_left (addSpread fragmentDir fs) spreads st) = idsObject st.
Proof.
  induction spreads as [|spread spreads IH]; intro st; [reflexivity|].
  cbn [fold_left]. rewrite IH. unfold addSpread.
  now destruct (Glob.sync _ fs).
Qed.

Section RegistryKept.

Variable env : Env.
Variable generateNested : Path -> World -> Result World.

Lemma resolveSelection_Kept type fragmentDir idsRelativePath fieldToFragmentMap
    (selection : Selection) (st st' : Locals) (w w' : World) :
  resolveSelection env generateNested type fragmentDir idsRelativePath
    fieldToFragmentMap selection st w = Ok (st', w') ->
  Kept (idsObject st) (idsObject st').
Proof.
  unfold resolveSelection.
  destruct selection as [fieldName sub| |];
    try (intro H; injection H as <- _; apply Kept_refl).
  destruct (negb (hasGetFields (typeKind type))); [discriminate|].
  destruct (getField type fieldName) as [gqlFieldType|]; [|discriminate].
  destruct (fieldName =? "id").
  { unfold resolveId.
    pose proof (handleIdField_Kept type (idsObject st) (unwrapType gqlFieldType)
                  idsRelativePath (fields st) (imports st)) as Hk.
    destruct (handleIdField _ _ _ _ _ _) as [[ids1 f1] i1].
    intro H. injection H as <- _. exact Hk. }
  destruct (isScalar (unwrapType gqlFieldType)).
  { unfold resolveScalar. destruct (getFakerMockForScalar _ _ _ _).
    intro H. injection H as <- _. apply Kept_refl. }
  destruct (isEnum (unwrapType gqlFieldType)).
  { unfold resolveEnum. intro H. injection H as <- _. apply Kept_refl. }
  unfold resolveNested.
  destruct (fragmentToSearch _ _ _); [|discriminate].
  destruct (Glob.sync _ _); [intro H; injection H as <- _; apply Kept_refl|].
  destruct (extractFragmentName _ _); [|discriminate].
  destruct (if negb _ then _ else _); cbn [bind]; try discriminate.
  intro H. injection H as <- _. apply Kept_refl.
Qed.

Lemma processFile_Kept (filePath : Path) (ids ids' : Registry) (w w' : World) :
  processFile env generateNested filePath ids w = Ok (ids', w') -> Kept ids ids'.
Proof.
  unfold processFile.
  destruct (Fs.readFile _ _) as [content|]; [|discriminate].
  destruct (parse env content) as [fragmentAst|]; [|discriminate].
  destruct (find _ _) as [[fragmentName typeCondition selections| |]|];
    try (intro H; injection H as <- _; apply Kept_refl).
  destruct (getType _ _) as [type|];
    [|intro H; injection H as <- _; apply Kept_refl].
  unfold resolveFragment.
  destruct (forEach _ selections _ w) as [[st1 w1]| |] eqn:Hloop; cbn [bind];
    try discriminate.
  intro H. injection H as <- _. cbn [idsObject]. rewrite addSpread_idsObject.
  apply (forEach_state (fun a b => Kept (idsObject a) (idsObject b))) in Hloop.
  - exact Hloop.
  - intro s. apply Kept_refl.
  - intros a b c. apply Kept_trans.
  - intros x s v s' v'. apply resolveSelection_Kept.
Qed.

End RegistryKept.

(** X9. A call that returns never removes, changes or reorders an entry
    of the registry: what it saves is what it loaded, with the new entries
    at the end, and if the keys were distinct they still are. *)
Theorem generateFactory_keeps_registry
    (env : Env) (fuel : nat) (fragmentPath : Path) (w w' : World) :
  generateFactory env fuel fragmentPath w = Ok w' ->
  (exists added, idsFile w' = (idsFile w ++ added)%list)
  /\ (NoDup (keys (idsFile w)) -> NoDup (keys (idsFile w'))).
Proof.
  destruct fuel as [|fuel]; [discriminate|].
  cbn [generateFactory]. unfold generateFactoryBody.
  destruct (forEach _ _ _ w) as [[ids1 w1]| |] eqn:Hloop; cbn [bind]; try discriminate.
  intro H. injection H as <-. cbn [idsFile emit saveSync].
  apply (forEach_state Kept) in Hloop.
  - exact Hloop.
  - apply Kept_refl.
  - apply Kept_trans.
  - intros x s v s' v'. apply processFile_Kept.
Qed.

Lemma generateFactory_keeps_registry_witness :
  exists w',
    generateFactory (Sample.sampleEnv Sample.fakerA) 1 Sample.profilePath
      {| files := [(Sample.profilePath, Sample.profileText)];
         idsFile := [("user", "[1, 2, 3]")]; trace := []; draws := 0 |} = Ok w'
    /\ (exists added, idsFile w' = ([("user", "[1, 2, 3]")] ++ added)%list)
    /\ (NoDup (keys [("user", "[1, 2, 3]")]) -> NoDup (keys (idsFile w'))).
Proof.
  eexists. split; [vm_compute; reflexivity|].
  apply (generateFactory_keeps_registry (Sample.sampleEnv Sample.fakerA) 1
           Sample.profilePath
           {| files := [(Sample.profilePath, Sample.profileText)];
              idsFile := [("user", "[1, 2, 3]")]; trace := []; draws := 0 |}).
  vm_compute. reflexivity.
Defined.

(* ================================================================== *)
(** ** The files over a run *)

Lemma Reach_trans (a b c : World) : Reach a b -> Reach b c -> Reach a c.
Proof.
  intros Hab Hbc. induction Hbc; [exact Hab| | | |]; now constructor.
Qed.

Lemma afterwards_from {A} (proj : A -> World) (w w1 : World) (r : Result A) :
  Reach w w1 -> afterwards proj (Reach w1) r -> afterwards proj (Reach w) r.
Proof.
  intro H. destruct r as [a|e v|]; cbn; [| |trivial]; apply Reach_trans, H.
Qed.

Lemma forEach_Reach {A S} (body : A -> S -> World -> Result (S * World)) (l : list A) :
  (forall x s w, afterwards snd (Reach w) (body x s w)) ->
  forall s w, afterwards snd (Reach w) (forEach body l s w).
Proof.
  intro Hbody. induction l as [|x l IH]; intros s w; [apply reach_refl|].
  cbn [forEach]. pose proof (Hbody x s w) as Hx.
  destruct (body x s w) as [[s1 w1]|e v|]; cbn [bind]; [|exact Hx|exact I].
  apply (afterwards_from snd w w1); [exact Hx | apply IH].
Qed.

Lemma isFactoryPath_join (dir : Path) (stem : string) :
  isFactoryPath (PathLib.join dir (stem ++ ".factory.ts")) = true.
Proof.
  unfold isFactoryPath, PathLib.join, push. rewrite rev_app_distr. cbn [List.rev app].
  apply endsWith_app.
Qed.

Section Effects.

Variable env : Env.
Variable generateNested : Path -> World -> Result World.
Hypothesis nested_reach :
  forall p w, afterwards (fun v => v) (Reach w) (generateNested p w).

Lemma resolveSelection_Reach type fragmentDir idsRelativePath fieldToFragmentMap
    (selection : Selection) (st : Locals) (w : World) :
  afterwards snd (Reach w)
    (resolveSelection env generateNested type fragmentDir idsRelativePath
       fieldToFragmentMap selection st w).
Proof.
  unfold resolveSelection.
  destruct selection as [fieldName sub| |]; try apply reach_refl.
  destruct (negb (hasGetFields (typeKind type))); [apply reach_refl|].
  destruct (getField type fieldName) as [gqlFieldType|]; [|apply reach_refl].
  destruct (fieldName =? "id").
  { unfold resolveId. destruct (handleIdField _ _ _ _ _ _) as [[? ?] ?].
    apply reach_refl. }
  destruct (isScalar (unwrapType gqlFieldType)).
  { unfold resolveScalar. destruct (getFakerMockForScalar _ _ _ _).
    cbn. apply reach_draws, reach_refl. }
  destruct (isEnum (unwrapType gqlFieldType)); [apply reach_refl|].
  unfold resolveNested.
  destruct (fragmentToSearch _ _ _) as [target|]; [|apply reach_refl].
  destruct (Glob.sync _ _) as [|nestedFragmentPath ?]; [apply reach_refl|].
  destruct (extractFragmentName _ _); [|apply reach_refl].
  destruct (negb (Fs.existsSync _ _)); [|apply reach_refl].
  pose proof (nested_reach nestedFragmentPath (emit (LogGeneratingNested target) w)) as Hn.
  destruct (generateNested _ _) as [w1|e v|]; cbn in Hn |- *; [| |exact I];
    (eapply Reach_trans; [apply reach_emit, reach_refl | exact Hn]).
Qed.

Lemma processFile_Reach (filePath : Path) (ids : Registry) (w : World) :
  afterwards snd (Reach w) (processFile env generateNested filePath ids w).
Proof.
  unfold processFile.
  destruct (Fs.readFile _ _) as [content|]; [|apply reach_refl].
  destruct (parse env content) as [fragmentAst|]; [|apply reach_refl].
  destruct (find _ _) as [[fragmentName typeCondition selections| |]|];
    try apply reach_refl.
  destruct (getType _ _) as [type|]; [|apply reach_refl].
  unfold resolveFragment.
  pose proof (forEach_Reach
                (resolveSelection env generateNested type (PathLib.dirname filePath)
                   (toRelativeImport (PathLib.dirname filePath) IDS_PATH)
                   (getFieldFragmentMap content))
                selections
                (fun x s v => resolveSelection_Reach _ _ _ _ x s v)) as Hloop.
  match goal with
  | |- context [forEach ?b selections ?s w] =>
      specialize (Hloop s w); destruct (forEach b selections s w) as [[st1 w1]|e v|]
  end; cbn [bind]; [|exact Hloop|exact I].
  cbn in Hloop |- *.
  apply reach_emit, reach_write; [apply isFactoryPath_join | exact Hloop].
Qed.

Lemma generateFactoryBody_Reach (fragmentPath : Path) (w : World) :
  afterwards (fun v => v) (Reach w) (generateFactoryBody env generateNested fragmentPath w).
Proof.
  unfold generateFactoryBody.
  match goal with
  | |- context [forEach ?b ?l ?s w] =>
      pose proof (forEach_Reach b l (fun x y v => processFile_Reach x y v) s w) as Hloop;
      destruct (forEach b l s w) as [[ids1 w1]|e v|]
  end; cbn [bind]; [|exact Hloop|exact I].
  cbn in Hloop |- *. now apply reach_emit, reach_save.
Qed.

End Effects.

Lemma generateFactory_Reach (env : Env) (fuel : nat) :
  forall p w, afterwards (fun v => v) (Reach w) (generateFactory env fuel p w).
Proof.
  induction fuel as [|fuel IH]; intros p w; [exact I|].
  cbn [generateFactory]. now apply generateFactoryBody_Reach.
Qed.

Lemma main_Reach (env : Env) (fuel : nat) (w w' : World) :
  main env fuel w = Ok w' -> Reach w w'.
Proof.
  unfold main, mainLoop.
  destruct (Glob.sync Glob.anyFragment (files w)) as [|p paths].
  { intro H. injection H as <-. apply reach_emit, reach_refl. }
  match goal with
  | |- context [forEach ?b ?l ?s w] =>
      assert (Hloop : afterwards snd (Reach w) (forEach b l s w));
      [|destruct (forEach b l s w) as [[u w1]|e v|]]
  end.
  - apply forEach_Reach. intros x s v.
    pose proof (generateFactory_Reach env fuel x (emit (LogGeneratingFor x) v)) as Hc.
    destruct (generateFactory env fuel x _) as [v1|e v1|]; cbn in Hc |- *; [| |exact I];
      (eapply Reach_trans; [apply reach_emit, reach_refl | exact Hc]).
  - cbn. intro H. injection H as <-. exact Hloop.
  - cbn. intro H. injection H as <-. apply reach_emit. exact Hloop.
  - discriminate.
Qed.

Lemma path_eqb_eq (p q : Path) : path_eqb p q = true <-> p = q.
Proof.
  unfold path_eqb. destruct (list_eq_dec string_dec p q); split; congruence.
Qed.

Lemma readFile_writeFile (fs : FS) (q p : Path) (c : string) :
  Fs.readFile (Fs.writeFile fs q c) p
  = if path_eqb q p then Some c else Fs.readFile fs p.
Proof.
  induction fs as [|[q' c'] fs IH]; cbn.
  - destruct (path_eqb q p); reflexivity.
  - destruct (path_eqb q' q) eqn:Hq; cbn.
    + apply path_eqb_eq in Hq as ->. now destruct (path_eqb q p).
    + rewrite IH. destruct (path_eqb q' p) eqn:Hp; [|reflexivity].
      destruct (path_eqb q p) eqn:Hqp; [|reflexivity].
      apply path_eqb_eq in Hp, Hqp. subst.
      now rewrite (proj2 (path_eqb_eq _ _) eq_refl) in Hq.
Qed.

Lemma Reach_sources (w w' : World) :
  Reach w w' ->
  (forall p, isFactoryPath p = false ->
             Fs.readFile (files w') p = Fs.readFile (files w) p)
  /\ (forall p, Fs.existsSync (files w) p = true -> Fs.existsSync (files w') p = true).
Proof.
  induction 1 as [|e v _ IH|n v _ IH|q c v Hq _ IH|ids v _ IH];
    try exact IH; [split; trivial|].
  destruct IH as [Hread Hexists]. cbn [files writeFileSync emit]. split.
  - intros p Hp. rewrite readFile_writeFile.
    destruct (path_eqb q p) eqn:Hqp; [|now apply Hread].
    apply path_eqb_eq in Hqp as ->. congruence.
  - intros p Hp. unfold Fs.existsSync. rewrite readFile_writeFile.
    destruct (path_eqb q p); [reflexivity|]. now apply Hexists.
Qed.



(** X11. When a call on one file returns, and the file holds a fragment
    on a type of the schema, the factory of that fragment exists, beside
    the file and under the kebab form of the fragment's name, and its
    generation has been logged. *)
Theorem generateFactory_writes_the_factory
    (env : Env) (fuel : nat) (fragmentPath : Path) (w w' : World)
    (content : string) (doc : DocumentNode)
    (fragmentName typeCondition : string) (selections : list Selection)
    (type : TypeDef) :
  fragmentPath <> [] ->
  Fs.readFile (files w) fragmentPath = Some content ->
  parse env content = Some doc ->
  find isFragmentDefinition doc
    = Some (FragmentDefinition fragmentName typeCondition selections) ->
  getType (schema env) typeCondition = Some type ->
  generateFactory env fuel fragmentPath w = Ok w' ->
  let factoryFilePath :=
    PathLib.join (PathLib.dirname fragmentPath) (toKebabCase fragmentName ++ ".factory.ts") in
  Fs.existsSync (files w') factoryFilePath = true
  /\ In (LogGenerated ("createMock" ++ fragmentName) factoryFilePath) (trace w').
Proof.
  intros Hpath Hread Hparse Hfrag Htype. destruct fuel as [|fuel]; [discriminate|].
  cbn [generateFactory]. unfold generateFactoryBody.
  destruct fragmentPath as [|seg segs]; [now elim Hpath|]. cbn [forEach].
  unfold processFile at 1. rewrite Hread, Hparse, Hfrag, Htype.
  destruct (resolveFragment _ _ _ _ _ _ _ _ _ _) as [[st1 w1]| |]; cbn [bind];
    try discriminate.
  intro H. injection H as <-. cbv zeta. split.
  - cbn [files emit saveSync writeFileSync]. unfold Fs.existsSync.
    rewrite readFile_writeFile.
    now rewrite (proj2 (path_eqb_eq _ _) eq_refl).
  - cbn [trace emit saveSync writeFileSync]. unfold push.
    rewrite !in_app_iff. cbn [In]. tauto.
Qed.

Lemma generateFactory_writes_the_factory_witness :
  exists w',
    generateFactory (Sample.sampleEnv Sample.fakerA) 1 Sample.profilePath
      (Sample.world [(Sample.profilePath, Sample.profileText)]) = Ok w'
    /\ Fs.existsSync (files w')
         (PathLib.join (PathLib.dirname Sample.profilePath)
            (toKebabCase "Profile" ++ ".factory.ts")) = true
    /\ In (LogGenerated ("createMock" ++ "Profile")
             (PathLib.join (PathLib.dirname Sample.profilePath)
                (toKebabCase "Profile" ++ ".factory.ts")))
          (trace w').
Proof.
  eexists. split; [vm_compute; reflexivity|].
  apply (generateFactory_writes_the_factory (Sample.sampleEnv Sample.fakerA) 1
           Sample.profilePath
           (Sample.world [(Sample.profilePath, Sample.profileText)]) _
           Sample.profileText Sample.profileDoc "Profile" "Profile"
           Sample.profileSelections Sample.Profile);
    try reflexivity.
  intro H. discriminate H.
Defined.

(* ================================================================== *)
(** ** A field that the type does not have *)

Lemma forEach_pass_non_fields env generateNested type fragmentDir idsRelativePath
    fieldToFragmentMap (pre rest : list Selection) (st : Locals) (w : World) :
  forallb (fun s => negb (isField s)) pre = true ->
  forEach (resolveSelection env generateNested type fragmentDir idsRelativePath
             fieldToFragmentMap) (pre ++ rest)%list st w
  = forEach (resolveSelection env generateNested type fragmentDir idsRelativePath
               fieldToFragmentMap) rest st w.
Proof.
  induction pre as [|s pre IH]; [reflexivity|].
  cbn [forallb]. intro H. apply andb_prop in H as [Hs Hpre].
  cbn [app forEach]. destruct s; [discriminate Hs| |]; cbn [resolveSelection bind];
    now apply IH.
Qed.

Lemma anyFragment_nonempty (fs : FS) (p : Path) (rest : list Path) :
  Glob.sync Glob.anyFragment fs = p :: rest -> p <> [].
Proof.
  intros H ->.
  assert (Hin : In [] (Glob.sync Glob.anyFragment fs)) by (rewrite H; now left).
  unfold Glob.sync in Hin. apply in_map_iff in Hin as [[q c] [Hq Hin]].
  apply filter_In in Hin as [_ Hacc]. cbn [fst] in Hq, Hacc. subst q. discriminate Hacc.
Qed.

(** X12. When the first fragment that [main] finds selects, as its first
    field, a field that its type does not have, or is on a type without
    fields, the run ends there: the error caught is a [TypeError], no
    factory has been written, the registry has not been saved, and the
    other fragments have not been looked at. *)
Theorem main_stops_at_unknown_field
    (env : Env) (fuel : nat) (w : World) (p : Path) (rest : list Path)
    (content : string) (doc : DocumentNode) (fragmentName typeCondition : string)
    (pre post : list Selection) (fieldName : string) (sub : list Selection)
    (type : TypeDef) :
  Glob.sync Glob.anyFragment (files w) = p :: rest ->
  Fs.readFile (files w) p = Some content ->
  parse env content = Some doc ->
  find isFragmentDefinition doc
    = Some (FragmentDefinition fragmentName typeCondition
              (pre ++ Field fieldName sub :: post)%list) ->
  getType (schema env) typeCondition = Some type ->
  forallb (fun s => negb (isField s)) pre = true ->
  hasGetFields (typeKind type) = false \/ getField type fieldName = None ->
  exists message,
    main env (S fuel) w
    = Ok (emit (ErrorRunning (TypeError message)) (emit (LogGeneratingFor p) w)).
Proof.
  intros Hglob Hread Hparse Hfrag Htype Hpre Hbad.
  pose proof (anyFragment_nonempty _ _ _ Hglob) as Hp.
  unfold main, mainLoop. rewrite Hglob. cbn [forEach generateFactory].
  unfold generateFactoryBody.
  destruct p as [|seg segs]; [now elim Hp|]. cbn [forEach].
  unfold processFile at 1. cbn [files emit]. rewrite Hread, Hparse, Hfrag, Htype.
  unfold resolveFragment. rewrite (forEach_pass_non_fields _ _ _ _ _ _ _ _ _ _ Hpre).
  cbn [forEach]. unfold resolveSelection at 1.
  destruct (hasGetFields (typeKind type)) eqn:Hfields; cbn [negb bind].
  - destruct Hbad as [Hbad|Hbad]; [discriminate|]. rewrite Hbad. cbn [bind].
    now eexists.
  - now eexists.
Qed.

(** [Profile] has no field [nickname]. *)
Lemma main_stops_at_unknown_field_witness :
  exists message,
    main {| schema := Sample.sampleSchema;
            parse := parseTable
                       [("fragment Nick on Profile { nickname id }",
                         [FragmentDefinition "Nick" "Profile"
                            [Field "nickname" []; Field "id" []]])];
            faker := Sample.fakerA |} 1
      (Sample.world [(["src"; "gql"; "nick"; "nick.fragment.gql"],
                      "fragment Nick on Profile { nickname id }");
                     (Sample.profilePath, Sample.profileText)])
    = Ok (emit (ErrorRunning (TypeError message))
            (emit (LogGeneratingFor ["src"; "gql"; "nick"; "nick.fragment.gql"])
               (Sample.world [(["src"; "gql"; "nick"; "nick.fragment.gql"],
                               "fragment Nick on Profile { nickname id }");
                              (Sample.profilePath, Sample.profileText)]))).
Proof.
  apply (main_stops_at_unknown_field _ 0 _ _ [Sample.profilePath]
           "fragment Nick on Profile { nickname id }"
           [FragmentDefinition "Nick" "Profile" [Field "nickname" []; Field "id" []]]
           "Nick" "Profile" [] [Field "id" []] "nickname" [] Sample.Profile);
    try reflexivity.
  right. reflexivity.
Defined.

(* ================================================================== *)
(** ** The bound on the recursion *)

Lemma approx_refl {A} (r : Result A) : approx r r.
Proof. now right. Qed.

Lemma bind_approx {A B} (r1 r2 : Result A) (k1 k2 : A -> Result B) :
  approx r1 r2 -> (forall a, approx (k1 a) (k2 a)) ->
  approx (bind r1 k1) (bind r2 k2).
Proof.
  intros [->| ->] Hk; [now left|].
  destruct r2 as [a| |]; cbn; [apply Hk | now right | now left].
Qed.

Lemma forEach_approx {A S} (body1 body2 : A -> S -> World -> Result (S * World))
    (l : list A) :
  (forall x s w, approx (body1 x s w) (body2 x s w)) ->
  forall s w, approx (forEach body1 l s w) (forEach body2 l s w).
Proof.
  intro Hbody. induction l as [|x l IH]; intros s w; [apply approx_refl|].
  cbn [forEach]. apply bind_approx; [apply Hbody|]. intros [s1 w1]. apply IH.
Qed.

Section MoreFuel.

Variable env : Env.
Variables generate1 generate2 : Path -> World -> Result World.
Hypothesis nested_approx : forall p w, approx (generate1 p w) (generate2 p w).

Lemma resolveSelection_approx type fragmentDir idsRelativePath fieldToFragmentMap
    (selection : Selection) (st : Locals) (w : World) :
  approx
    (resolveSelection env generate1 type fragmentDir idsRelativePath
       fieldToFragmentMap selection st w)
    (resolveSelection env generate2 type fragmentDir idsRelativePath
       fieldToFragmentMap selection st w).
Proof.
  unfold resolveSelection.
  destruct selection as [fieldName sub| |]; try apply approx_refl.
  destruct (negb (hasGetFields (typeKind type))); [apply approx_refl|].
  destruct (getField type fieldName) as [gqlFieldType|]; [|apply approx_refl].
  destruct (fieldName =? "id"); [apply approx_refl|].
  destruct (isScalar (unwrapType gqlFieldType)); [apply approx_refl|].
  destruct (isEnum (unwrapType gqlFieldType)); [apply approx_refl|].
  unfold resolveNested.
  destruct (fragmentToSearch _ _ _) as [target|]; [|apply approx_refl].
  destruct (Glob.sync _ _) as [|nestedFragmentPath ?]; [apply approx_refl|].
  destruct (extractFragmentName _ _); [|apply approx_refl].
  apply bind_approx; [|intro; apply approx_refl].
  destruct (negb (Fs.existsSync _ _)); [apply nested_approx | apply approx_refl].
Qed.

Lemma processFile_approx (filePath : Path) (ids : Registry) (w : World) :
  approx (processFile env generate1 filePath ids w)
         (processFile env generate2 filePath ids w).
Proof.
  unfold processFile.
  destruct (Fs.readFile _ _) as [content|]; [|apply approx_refl].
  destruct (parse env content) as [fragmentAst|]; [|apply approx_refl].
  destruct (find _ _) as [[fragmentName typeCondition selections| |]|];
    try apply approx_refl.
  destruct (getType _ _) as [type|]; [|apply approx_refl].
  apply bind_approx; [|intros [st1 w1]; apply approx_refl].
  unfold resolveFragment.
  apply bind_approx; [|intros [st1 w1]; apply approx_refl].
  apply forEach_approx. intros x s v. apply resolveSelection_approx.
Qed.

Lemma generateFactoryBody_approx (fragmentPath : Path) (w : World) :
  approx (generateFactoryBody env generate1 fragmentPath w)
         (generateFactoryBody env generate2 fragmentPath w).
Proof.
  unfold generateFactoryBody.
  apply bind_approx; [|intros [ids1 w1]; apply approx_refl].
  apply forEach_approx. intros x s v. apply processFile_approx.
Qed.

End MoreFuel.

Lemma generateFactory_approx_succ (env : Env) (fuel : nat) :
  forall p w, approx (generateFactory env fuel p w) (generateFactory env (S fuel) p w).
Proof.
  induction fuel as [|fuel IH]; intros p w; [now left|].
  cbn [generateFactory]. now apply generateFactoryBody_approx.
Qed.



(* ================================================================== *)
(** ** Regeneration *)

Lemma fragmentNamed_head (k s0 : string) (rest : Path) :
  Glob.fragmentNamed k (s0 :: rest) = true -> s0 = "src".
Proof.
  unfold Glob.fragmentNamed. intro H.
  destruct s0 as [|c0 s0]; [discriminate H|].
  destruct c0 as [[] [] [] [] [] [] [] []]; try discriminate H.
  destruct s0 as [|c1 s1]; [discriminate H|].
  destruct c1 as [[] [] [] [] [] [] [] []]; try discriminate H.
  destruct s1 as [|c2 s2]; [discriminate H|].
  destruct c2 as [[] [] [] [] [] [] [] []]; try discriminate H.
  destruct s2 as [|c3 s3]; [reflexivity | discriminate H].
Qed.

Lemma fragmentNamed_fragmentFile (k : string) (q : Path) :
  Glob.fragmentNamed k q = true -> isFragmentFile q = true.
Proof.
  destruct q as [|s0 rest]; [discriminate|]. intro H.
  pose proof (fragmentNamed_head _ _ _ H) as ->.
  cbn [Glob.fragmentNamed] in H. unfold isFragmentFile. cbn [List.rev].
  destruct (List.rev rest) as [|file [|dir dirs]]; try discriminate H.
  cbn [app]. apply andb_prop in H as [Hfile _].
  apply String.eqb_eq in Hfile as ->. apply endsWith_app.
Qed.

Lemma list_ascii_app (a b : string) :
  list_ascii_of_string (a ++ b)
  = (list_ascii_of_string a ++ list_ascii_of_string b)%list.
Proof. induction a as [|c a IH]; cbn; [reflexivity | now rewrite IH]. Qed.

Lemma lastChar_app (a b : string) : b <> EmptyString -> lastChar (a ++ b) = lastChar b.
Proof.
  intro Hb. unfold lastChar. rewrite list_ascii_app, rev_app_distr.
  destruct b as [|c b]; [now elim Hb|]. cbn [list_ascii_of_string List.rev].
  destruct (List.rev (list_ascii_of_string b)); reflexivity.
Qed.

Lemma endsWith_lastChar (suffix s : string) :
  suffix <> EmptyString -> Str.endsWith suffix s = true -> lastChar s = lastChar suffix.
Proof.
  intro Hsuf. induction s as [|c s IH].
  - destruct suffix; [now elim Hsuf | discriminate].
  - cbn [Str.endsWith]. intro H. apply orb_prop in H as [H|H].
    + now apply String.eqb_eq in H as <-.
    + rewrite <- (IH H). apply (lastChar_app (String c EmptyString) s).
      intros ->. destruct suffix; [now elim Hsuf | discriminate H].
Qed.

Lemma factory_is_no_fragment (q : Path) :
  isFactoryPath q = true -> isFragmentFile q = false.
Proof.
  unfold isFactoryPath, isFragmentFile.
  destruct (List.rev q) as [|file _]; [discriminate|]. intro Hts.
  destruct (Str.endsWith ".fragment.gql" file) eqn:Hgql; [|reflexivity].
  apply endsWith_lastChar in Hts; [|discriminate].
  apply endsWith_lastChar in Hgql; [|discriminate].
  rewrite Hts in Hgql. discriminate Hgql.
Qed.

Lemma writeFile_paths (fs : FS) (q p : Path) (c : string) :
  In p (List.map fst (Fs.writeFile fs q c)) -> p = q \/ In p (List.map fst fs).
Proof.
  induction fs as [|[q' c'] fs IH]; cbn.
  - intros [<-|[]]. now left.
  - destruct (path_eqb q' q); cbn; [tauto|].
    intros [<-|H]; [now right; left|]. destruct (IH H); tauto.
Qed.

Lemma factoriesPresent_write (fs : FS) (q : Path) (c : string) :
  isFactoryPath q = true ->
  factoriesPresent fs = true -> factoriesPresent (Fs.writeFile fs q c) = true.
Proof.
  intros Hq Hfs. unfold factoriesPresent in *. apply forallb_forall. intros p Hp.
  apply writeFile_paths in Hp as [->|Hp].
  - now rewrite (factory_is_no_fragment q Hq).
  - pose proof (proj1 (forallb_forall _ _) Hfs p Hp) as H.
    cbn beta in H |- *.
    destruct (isFragmentFile p); [|reflexivity]. cbn [negb orb] in H |- *.
    unfold Fs.existsSync in H |- *. rewrite readFile_writeFile.
    destruct (path_eqb q _); [reflexivity | exact H].
Qed.

Lemma Reach_factoriesPresent (w w' : World) :
  Reach w w' ->
  factoriesPresent (files w) = true -> factoriesPresent (files w') = true.
Proof.
  induction 1 as [|e v _ IH|n v _ IH|q c v Hq _ IH|ids v _ IH]; intro H;
    try (apply IH, H); [exact H|].
  cbn [files writeFileSync emit]. apply factoriesPresent_write; [exact Hq | apply IH, H].
Qed.

Lemma settles_from {A} (proj : A -> World) (w w1 : World) (r : Result A) :
  Reach w w1 -> settles proj w1 r -> settles proj w r.
Proof.
  intro H. destruct r as [a|e v|]; cbn; [|trivial|trivial]. apply Reach_trans, H.
Qed.

Lemma forEach_settles {A S} (body : A -> S -> World -> Result (S * World)) (l : list A) :
  (forall x s w, factoriesPresent (files w) = true -> settles snd w (body x s w)) ->
  forall s w, factoriesPresent (files w) = true -> settles snd w (forEach body l s w).
Proof.
  intro Hbody. induction l as [|x l IH]; intros s w Hw; [apply reach_refl|].
  cbn [forEach]. pose proof (Hbody x s w Hw) as Hx.
  destruct (body x s w) as [[s1 w1]|e v|]; cbn [bind]; [|exact I|exact Hx].
  cbn in Hx. apply (settles_from snd w w1 _ Hx), IH.
  now apply (Reach_factoriesPresent w w1).
Qed.

Section Regeneration.

Variable env : Env.
Variable generateNested : Path -> World -> Result World.

Lemma resolveSelection_settles type fragmentDir idsRelativePath fieldToFragmentMap
    (selection : Selection) (st : Locals) (w : World) :
  factoriesPresent (files w) = true ->
  settles snd w
    (resolveSelection env generateNested type fragmentDir idsRelativePath
       fieldToFragmentMap selection st w).
Proof.
  intro Hw. unfold resolveSelection.
  destruct selection as [fieldName sub| |]; try apply reach_refl.
  destruct (negb (hasGetFields (typeKind type))); [exact I|].
  destruct (getField type fieldName) as [gqlFieldType|]; [|exact I].
  destruct (fieldName =? "id").
  { unfold resolveId. destruct (handleIdField _ _ _ _ _ _) as [[? ?] ?].
    apply reach_refl. }
  destruct (isScalar (unwrapType gqlFieldType)).
  { unfold resolveScalar. destruct (getFakerMockForScalar _ _ _ _).
    cbn. apply reach_draws, reach_refl. }
  destruct (isEnum (unwrapType gqlFieldType)); [apply reach_refl|].
  unfold resolveNested.
  destruct (fragmentToSearch _ _ _) as [target|]; [|exact I].
  destruct (Glob.sync _ _) as [|nestedFragmentPath others] eqn:Hglob; [apply reach_refl|].
  destruct (extractFragmentName _ _); [|exact I].
  assert (Hexists : Fs.existsSync (files w)
                      (PathLib.replaceFirst ".fragment.gql" ".factory.ts"
                         nestedFragmentPath) = true).
  { assert (Hin : In nestedFragmentPath
                    (Glob.sync (Glob.fragmentNamed (toKebabCase target)) (files w)))
      by (rewrite Hglob; now left).
    unfold Glob.sync in Hin. apply in_map_iff in Hin as [[q c] [Hq Hin]].
    apply filter_In in Hin as [Hin Hacc]. cbn [fst] in Hq, Hacc. subst q.
    pose proof (proj1 (forallb_forall _ _) Hw nestedFragmentPath
                  (in_map fst _ _ Hin)) as H.
    cbn beta in H. now rewrite (fragmentNamed_fragmentFile _ _ Hacc) in H. }
  rewrite Hexists. cbn [negb bind]. apply reach_refl.
Qed.

Lemma processFile_settles (filePath : Path) (ids : Registry) (w : World) :
  factoriesPresent (files w) = true ->
  settles snd w (processFile env generateNested filePath ids w).
Proof.
  intro Hw. unfold processFile.
  destruct (Fs.readFile _ _) as [content|]; [|exact I].
  destruct (parse env content) as [fragmentAst|]; [|exact I].
  destruct (find _ _) as [[fragmentName typeCondition selections| |]|];
    try apply reach_refl.
  destruct (getType _ _) as [type|]; [|apply reach_refl].
  unfold resolveFragment.
  match goal with
  | |- context [forEach ?b selections ?s w] =>
      pose proof (forEach_settles b selections
                    (fun x y v => resolveSelection_settles _ _ _ _ x y v) s w Hw) as Hloop;
      destruct (forEach b selections s w) as [[st1 w1]|e v|]
  end; cbn [bind]; [|exact I|exact Hloop].
  cbn in Hloop |- *.
  apply reach_emit, reach_write; [apply isFactoryPath_join | exact Hloop].
Qed.

Lemma generateFactoryBody_settles (fragmentPath : Path) (w : World) :
  factoriesPresent (files w) = true ->
  settles (fun v => v) w (generateFactoryBody env generateNested fragmentPath w).
Proof.
  intro Hw. unfold generateFactoryBody.
  match goal with
  | |- context [forEach ?b ?l ?s w] =>
      pose proof (forEach_settles b l (fun x y v => processFile_settles x y v) s w Hw)
        as Hloop;
      destruct (forEach b l s w) as [[ids1 w1]|e v|]
  end; cbn [bind]; [|exact I|exact Hloop].
  cbn in Hloop |- *. now apply reach_emit, reach_save.
Qed.

End Regeneration.

(** X14. On a tree where every fragment file already has its factory
    file, as after a first generation, no nested generation is started:
    a call of [generateFactory], and a run of [main], end within a
    recursion of depth one. *)
Theorem regeneration_terminates
    (env : Env) (fuel : nat) (fragmentPath : Path) (w : World) :
  factoriesPresent (files w) = true ->
  generateFactory env (S fuel) fragmentPath w <> OutOfFuel
  /\ main env (S fuel) w <> OutOfFuel.
Proof.
  intro Hw.
  assert (Hcall : forall p v, factoriesPresent (files v) = true ->
                    settles (fun v => v) v (generateFactory env (S fuel) p v)).
  { intros p v Hv. cbn [generateFactory]. now apply generateFactoryBody_settles. }
  split.
  - intro H. specialize (Hcall fragmentPath w Hw). now rewrite H in Hcall.
  - unfold main, mainLoop.
    destruct (Glob.sync Glob.anyFragment (files w)) as [|p paths]; [discriminate|].
    match goal with
    | |- context [forEach ?b ?l ?s w] =>
        assert (Hloop : settles snd w (forEach b l s w));
        [|destruct (forEach b l s w) as [[u w1]|e v|]; cbn [bind];
          [discriminate | discriminate | now elim Hloop]]
    end.
    apply forEach_settles; [|exact Hw]. intros x s v Hv.
    specialize (Hcall x (emit (LogGeneratingFor x) v) Hv).
    destruct (generateFactory env (S fuel) x _) as [v1|e v1|]; cbn in Hcall |- *;
      [|exact I|exact Hcall].
    eapply Reach_trans; [apply reach_emit, reach_refl | exact Hcall].
Qed.

(** The tree of the scenario, with [user.factory.ts] in place. *)
Lemma regeneration_terminates_witness :
  generateFactory (Sample.sampleEnv Sample.fakerA) 1 Sample.userPath
    (Sample.world (Sample.selfFiles
                   ++ [(["src"; "gql"; "user"; "user.factory.ts"], EmptyString)])%list)
  <> OutOfFuel
  /\ main (Sample.sampleEnv Sample.fakerA) 1
       (Sample.world (Sample.selfFiles
                      ++ [(["src"; "gql"; "user"; "user.factory.ts"], EmptyString)])%list)
     <> OutOfFuel.
Proof.
  apply (regeneration_terminates (Sample.sampleEnv Sample.fakerA) 0 Sample.userPath
           (Sample.world (Sample.selfFiles
                          ++ [(["src"; "gql"; "user"; "user.factory.ts"],
                               EmptyString)])%list)).
  reflexivity.
Defined.

(* ================================================================== *)
(** ** Where a nested factory is looked for *)

Lemma prefix_refl (p : string) : prefix p p = true.
Proof.
  induction p as [|a p IH]; [reflexivity|]. cbn [prefix].
  destruct (ascii_dec a a) as [_|Hne]; [exact IH | now elim Hne].
Qed.

Lemma includes_unfold (p s : string) :
  Str.includes p s
  = prefix p s || match s with
                  | String _ r => Str.includes p r
                  | EmptyString => false
                  end.
Proof. destruct s; reflexivity. Qed.

Lemma includes_app (pat a : string) : Str.includes pat (a ++ pat) = true.
Proof.
  induction a as [|c a IH]; cbn [append].
  - now rewrite includes_unfold, prefix_refl.
  - rewrite includes_unfold, IH. apply orb_true_r.
Qed.

Lemma replaceFirst_stem (k : string) :
  noDot k = true ->
  Str.replaceFirst ".fragment.gql" ".factory.ts" (k ++ ".fragment.gql")
  = k ++ ".factory.ts".
Proof.
  unfold noDot. induction k as [|c k IH]; [reflexivity|].
  cbn [Str.all]. intro H. apply andb_prop in H as [Hc Hk].
  cbn [append Str.replaceFirst].
  rewrite prefix_other_head.
  - now rewrite (IH Hk).
  - intros <-. discriminate Hc.
Qed.

(** X15. For a fragment file [k.fragment.gql] below directories whose
    names do not hold [.fragment.gql], the factory that the nested
    resolution looks for and imports is [k.factory.ts] in the same
    directory. *)
Theorem nestedFactoryPath_beside (dirs : Path) (k : string) :
  forallb (fun d => negb (Str.includes ".fragment.gql" d)) dirs = true ->
  noDot k = true ->
  PathLib.replaceFirst ".fragment.gql" ".factory.ts"
    (PathLib.join dirs (k ++ ".fragment.gql"))
  = PathLib.join (PathLib.dirname (PathLib.join dirs (k ++ ".fragment.gql")))
      (k ++ ".factory.ts").
Proof.
  intros Hdirs Hk. unfold PathLib.dirname, PathLib.join, push.
  rewrite removelast_last.
  induction dirs as [|d dirs IH]; cbn [app PathLib.replaceFirst].
  - now rewrite includes_app, (replaceFirst_stem k Hk).
  - cbn [forallb] in Hdirs. apply andb_prop in Hdirs as [Hd Hdirs].
    destruct (Str.includes ".fragment.gql" d); [discriminate Hd|].
    now rewrite (IH Hdirs).
Qed.

Lemma nestedFactoryPath_beside_witness :
  PathLib.replaceFirst ".fragment.gql" ".factory.ts"
    (PathLib.join ["src"; "gql"; "user"] ("user" ++ ".fragment.gql"))
  = PathLib.join
      (PathLib.dirname (PathLib.join ["src"; "gql"; "user"] ("user" ++ ".fragment.gql")))
      ("user" ++ ".factory.ts").
Proof.
  apply (nestedFactoryPath_beside ["src"; "gql"; "user"] "user"); reflexivity.
Defined.

(* ================================================================== *)
(** ** The registry and nested generations *)

Lemma resolveSelection_no_id env generateNested type fragmentDir idsRelativePath
    fieldToFragmentMap (selection : Selection) (st st' : Locals) (w w' : World) :
  isIdField selection = false ->
  resolveSelection env generateNested type fragmentDir idsRelativePath
    fieldToFragmentMap selection st w = Ok (st', w') ->
  idsObject st' = idsObject st.
Proof.
  unfold resolveSelection.
  destruct selection as [fieldName sub| |]; cbn [isIdField];
    try (intros _ H; now injection H as <- _).
  intros ->.
  destruct (negb (hasGetFields (typeKind type))); [discriminate|].
  destruct (getField type fieldName) as [gqlFieldType|]; [|discriminate].
  destruct (isScalar (unwrapType gqlFieldType)).
  { unfold resolveScalar. destruct (getFakerMockForScalar _ _ _ _).
    intro H. now injection H as <- _. }
  destruct (isEnum (unwrapType gqlFieldType)).
  { unfold resolveEnum. intro H. now injection H as <- _. }
  unfold resolveNested.
  destruct (fragmentToSearch _ _ _); [|discriminate].
  destruct (Glob.sync _ _); [intro H; now injection H as <- _|].
  destruct (extractFragmentName _ _); [|discriminate].
  destruct (if negb _ then _ else _); cbn [bind]; try discriminate.
  intro H. now injection H as <- _.
Qed.

Lemma forEach_no_id env generateNested type fragmentDir idsRelativePath
    fieldToFragmentMap (selections : list Selection) :
  forallb (fun s => negb (isIdField s)) selections = true ->
  forall st st' w w',
    forEach (resolveSelection env generateNested type fragmentDir idsRelativePath
               fieldToFragmentMap) selections st w = Ok (st', w') ->
    idsObject st' = idsObject st.
Proof.
  induction selections as [|s selections IH]; intros Hall st st' w w' H.
  - now injection H as <- _.
  - cbn [forallb] in Hall. apply andb_prop in Hall as [Hs Hall].
    cbn [forEach] in H.
    destruct (resolveSelection _ _ _ _ _ _ s st w) as [[st1 w1]| |] eqn:Hstep;
      cbn [bind] in H; try discriminate.
    rewrite (IH Hall _ _ _ _ H).
    apply (resolveSelection_no_id _ _ _ _ _ _ _ _ _ _ _ (proj1 (negb_true_iff _) Hs) Hstep).
Qed.

(** X16. The registry that a call saves is the one it loaded at its start
    with the entries for its own [id] fields: when the fragment of the
    file selects no field [id], the registry file is after the call what
    it was before, whatever nested generations have saved in between. *)
Theorem generateFactory_without_id_keeps_registry
    (env : Env) (fuel : nat) (fragmentPath : Path) (w w' : World)
    (content : string) (doc : DocumentNode)
    (fragmentName typeCondition : string) (selections : list Selection) :
  fragmentPath <> [] ->
  Fs.readFile (files w) fragmentPath = Some content ->
  parse env content = Some doc ->
  find isFragmentDefinition doc
    = Some (FragmentDefinition fragmentName typeCondition selections) ->
  forallb (fun s => negb (isIdField s)) selections = true ->
  generateFactory env fuel fragmentPath w = Ok w' ->
  idsFile w' = idsFile w.
Proof.
  intros Hpath Hread Hparse Hfrag Hnoid. destruct fuel as [|fuel]; [discriminate|].
  cbn [generateFactory]. unfold generateFactoryBody.
  destruct fragmentPath as [|seg segs]; [now elim Hpath|]. cbn [forEach].
  unfold processFile at 1. rewrite Hread, Hparse, Hfrag.
  destruct (getType _ _) as [type|]; cbn [bind];
    [|intro H; now injection H as <-].
  unfold resolveFragment.
  destruct (forEach _ selections _ w) as [[st1 w1]| |] eqn:Hloop; cbn [bind];
    try discriminate.
  intro H. injection H as <-. cbn [idsFile emit saveSync idsObject].
  rewrite addSpread_idsObject.
  now rewrite (forEach_no_id _ _ _ _ _ _ _ Hnoid _ _ _ _ Hloop).
Qed.

(** [Team] selects no [id]; its field [owner] makes the factory of
    [Profile] be generated, which saves an entry for [Profile]; the
    registry file ends as it began, without that entry. *)
Lemma generateFactory_without_id_keeps_registry_witness :
  exists w',
    generateFactory (Sample.sampleEnv Sample.fakerA) 2
      ["src"; "gql"; "team"; "team.fragment.gql"]
      (Sample.world [(["src"; "gql"; "team"; "team.fragment.gql"], Sample.teamText);
                     (Sample.profilePath, Sample.profileText)]) = Ok w'
    /\ In (IdsSaved [("profile", "[1, 2, 3]")]) (trace w')
    /\ idsFile w' = [].
Proof.
  eexists. split; [vm_compute; reflexivity|]. split.
  - vm_compute. auto 10.
  - apply (generateFactory_without_id_keeps_registry (Sample.sampleEnv Sample.fakerA) 2
             ["src"; "gql"; "team"; "team.fragment.gql"]
             (Sample.world [(["src"; "gql"; "team"; "team.fragment.gql"], Sample.teamText);
                            (Sample.profilePath, Sample.profileText)]) _
             Sample.teamText Sample.teamDoc "Team" "User" Sample.teamSelections);
      try reflexivity.
    intro H. discriminate H.
Defined.

(* ================================================================== *)
(** ** A file that cannot be read or parsed *)

(** X17. A call on a file that does not exist, or whose text is not a
    GraphQL document, throws in the world it started in: nothing is
    written or logged, and the registry is not saved. *)
Theorem generateFactory_unreadable
    (env : Env) (fuel : nat) (fragmentPath : Path) (w : World) :
  fragmentPath <> [] ->
  match Fs.readFile (files w) fragmentPath with
  | None => True
  | Some content => parse env content = None
  end ->
  generateFactory env (S fuel) fragmentPath w
  = Throw (match Fs.readFile (files w) fragmentPath with
           | None => ENOENT fragmentPath
           | Some _ => GraphQLSyntaxError
           end) w.
Proof.
  intros Hpath Hbad. cbn [generateFactory]. unfold generateFactoryBody.
  destruct fragmentPath as [|seg segs]; [now elim Hpath|]. cbn [forEach].
  unfold processFile.
  destruct (Fs.readFile (files w) (seg :: segs)) as [content|]; [|reflexivity].
  now rewrite Hbad.
Qed.

Lemma generateFactory_unreadable_witness :
  generateFactory (Sample.sampleEnv Sample.fakerA) 1 Sample.userPath
    (Sample.world [(Sample.userPath, "fragment User on")])
  = Throw (match Fs.readFile [(Sample.userPath, "fragment User on")] Sample.userPath with
           | None => ENOENT Sample.userPath
           | Some _ => GraphQLSyntaxError
           end)
      (Sample.world [(Sample.userPath, "fragment User on")]).
Proof.
  apply (generateFactory_unreadable (Sample.sampleEnv Sample.fakerA) 0 Sample.userPath
           (Sample.world [(Sample.userPath, "fragment User on")]));
    [intro H; discriminate H | reflexivity].
Defined.
